(** * distributed-nose: the test partitioning plugin

    A shallow embedding of [distributed_nose/plugin.py] (class
    [DistributedNose]) and the properties of its configuration phase, of
    the least-processing-time (LPT) build and of the three selection
    callbacks [wantClass], [wantMethod] and [wantFunction].

    Conventions of the embedding.
    - A Python [dict] whose iteration order matters ([self.lpt_data], whose
      [items()] are sorted) is an association list in iteration order; its
      keys are distinct.  The JSON object stored under each key is a finite
      map from field names to integers: durations are integers here, and
      floating-point durations are outside the embedding.
    - A Python [set] of strings is a [gset string].
    - [self.lpt_nodes] is a list; [min] hands back one of its elements and
      the loop mutates that element in place, which is an update of the
      list at the element's index.
    - Exceptions are the [Raise] results of the [result] monad; a method
      that mutates [self] returns the new [Plugin] next to its result, also
      when it raises.
    - What the plugin calls but does not define (the builtin [int] on a
      string, [open] and [json.load], [HashRing.get_node],
      [nose.util.test_address], [str]) is a field of the [Host] record.
    - Calls of [logger.critical] have no effect on any value and are left
      out. *)

From stdpp Require Import gmap strings list fin_maps sorting.

#[local] Set Warnings "-clear-no-such-hyp".

Local Open Scope Z_scope.

(** ** Exceptions and results *)

Inductive exn :=
  | AssertionError | AttributeError | IndexError | IOError
  | KeyError | TypeError | ValueError.

Inductive result (A : Type) :=
  | Ok (a : A)
  | Raise (e : exn).

Arguments Ok {A} a.
Arguments Raise {A} e.

#[global] Instance result_ret : MRet result := @Ok.

#[global] Instance result_bind : MBind result :=
  λ A B f r, match r with Ok a => f a | Raise e => Raise e end.

(** ** Python values that reach the plugin *)

(** The value of an attribute that holds [None], an [int] or a [str]. *)
Inductive pyval :=
  | PNone
  | PInt (z : Z)
  | PStr (s : string).

(** What optparse stores for [--nodes] and [--node-number]: the string from
    the command line or the environment, or the integer default [1]. *)
Inductive optval :=
  | OptInt (z : Z)
  | OptStr (s : string).

Definition to_py (v : optval) : pyval :=
  match v with OptInt z => PInt z | OptStr s => PStr s end.

(** The two [choices] of [--algorithm]. *)
Inductive algorithm_name := hash_ring_name | least_processing_time_name.

Definition ALGORITHM_HASH_RING : Z := 0.
Definition ALGORITHM_LEAST_PROCESSING_TIME : Z := 1.

(** The class attribute [algorithms]. *)
Definition algorithms (a : algorithm_name) : Z :=
  match a with
  | hash_ring_name => ALGORITHM_HASH_RING
  | least_processing_time_name => ALGORITHM_LEAST_PROCESSING_TIME
  end.

Record Options := {
  distributed_nodes : optval;
  distributed_node_number : optval;
  distributed_disabled : bool;
  distributed_hash_by_class : bool;
  options_algorithm : algorithm_name;
  options_lpt_data_filepath : option string
}.

(** ** Test items *)

Record pyclass := {
  cls_module : string;   (* cls.__module__ *)
  cls_name : string;     (* cls.__name__ *)
  cls_str : string       (* str(cls) *)
}.

Record pymethod := {
  meth_module : string;  (* method.__module__ *)
  im_class : pyclass;    (* method.im_class *)
  meth_name : string     (* method.__name__ *)
}.

Record pyfunction := {
  func_module : string;
  func_name : string
}.

Inductive testObject :=
  | FunctionItem (f : pyfunction)
  | MethodItem (m : pymethod).

(** ** Duration data and the LPT nodes *)

(** [self.lpt_data.items()], in the dict's iteration order. *)
Abbreviation dict := (list (string * gmap string Z)).

(** One element of [self.lpt_nodes]. *)
Record lpt_node := {
  processing_time : Z;
  objects : gset string
}.

(** ** The host *)

Record Host := {
  (* int(s) for a str s; None when it raises ValueError *)
  py_int : string → option Z;
  (* open(path) read to its end; None when it raises IOError *)
  open_read : string → option string;
  (* json.load on that content; None when it raises ValueError *)
  json_load : string → option dict;
  (* HashRing(nodes).get_node(key); None is Python's None *)
  get_node : list Z → string → option Z;
  (* the module and call parts of nose.util.test_address; None when it
     raises TypeError *)
  test_address : testObject → option (string * string);
  (* str(testObject) *)
  str_of : testObject → string
}.

(** ** The plugin object *)

Record Plugin := {
  node_count : pyval;
  node_id : pyval;
  hash_by_class : bool;
  algorithm : Z;
  lpt_data_filepath : option string;
  enabled : bool;
  hash_ring : option (list Z);            (* the nodes the ring was built from *)
  lpt_nodes : option (list lpt_node);
  lpt_data : option dict
}.

(** [__init__]; [enabled] is the class attribute inherited from nose's
    [Plugin], [hash_by_class], [algorithm] and [lpt_data_filepath] do not
    exist before [configure] assigns them. *)
Definition init : Plugin :=
  {| node_count := PNone; node_id := PNone; hash_by_class := false;
     algorithm := ALGORITHM_HASH_RING; lpt_data_filepath := None;
     enabled := false; hash_ring := None; lpt_nodes := None;
     lpt_data := None |}.

Definition set_node_count (v : pyval) (self : Plugin) : Plugin :=
  {| node_count := v; node_id := node_id self;
     hash_by_class := hash_by_class self; algorithm := algorithm self;
     lpt_data_filepath := lpt_data_filepath self; enabled := enabled self;
     hash_ring := hash_ring self; lpt_nodes := lpt_nodes self;
     lpt_data := lpt_data self |}.

Definition set_node_id (v : pyval) (self : Plugin) : Plugin :=
  {| node_count := node_count self; node_id := v;
     hash_by_class := hash_by_class self; algorithm := algorithm self;
     lpt_data_filepath := lpt_data_filepath self; enabled := enabled self;
     hash_ring := hash_ring self; lpt_nodes := lpt_nodes self;
     lpt_data := lpt_data self |}.

Definition set_enabled (b : bool) (self : Plugin) : Plugin :=
  {| node_count := node_count self; node_id := node_id self;
     hash_by_class := hash_by_class self; algorithm := algorithm self;
     lpt_data_filepath := lpt_data_filepath self; enabled := b;
     hash_ring := hash_ring self; lpt_nodes := lpt_nodes self;
     lpt_data := lpt_data self |}.

Definition set_hash_ring (r : option (list Z)) (self : Plugin) : Plugin :=
  {| node_count := node_count self; node_id := node_id self;
     hash_by_class := hash_by_class self; algorithm := algorithm self;
     lpt_data_filepath := lpt_data_filepath self; enabled := enabled self;
     hash_ring := r; lpt_nodes := lpt_nodes self;
     lpt_data := lpt_data self |}.

Definition set_lpt_nodes (l : option (list lpt_node)) (self : Plugin) : Plugin :=
  {| node_count := node_count self; node_id := node_id self;
     hash_by_class := hash_by_class self; algorithm := algorithm self;
     lpt_data_filepath := lpt_data_filepath self; enabled := enabled self;
     hash_ring := hash_ring self; lpt_nodes := l;
     lpt_data := lpt_data self |}.

Definition set_lpt_data (d : option dict) (self : Plugin) : Plugin :=
  {| node_count := node_count self; node_id := node_id self;
     hash_by_class := hash_by_class self; algorithm := algorithm self;
     lpt_data_filepath := lpt_data_filepath self; enabled := enabled self;
     hash_ring := hash_ring self; lpt_nodes := lpt_nodes self;
     lpt_data := d |}.

(** The first five assignments of [configure]. *)
Definition read_options (options : Options) (self : Plugin) : Plugin :=
  {| node_count := to_py (distributed_nodes options);
     node_id := to_py (distributed_node_number options);
     hash_by_class := distributed_hash_by_class options;
     algorithm := algorithms (options_algorithm options);
     lpt_data_filepath := options_lpt_data_filepath options;
     enabled := enabled self; hash_ring := hash_ring self;
     lpt_nodes := lpt_nodes self; lpt_data := lpt_data self |}.

(** ** [_options_are_valid] *)

(** The builtin [int]: the identity on an int, the host's parser on a str,
    a [TypeError] on [None]. *)
Definition int (h : Host) (v : pyval) : result Z :=
  match v with
  | PInt z => Ok z
  | PStr s => match py_int h s with Some z => Ok z | None => Raise ValueError end
  | PNone => Raise TypeError
  end.

Definition _options_are_valid (h : Host) (self : Plugin) : result bool * Plugin :=
  match int h (node_count self) with
  | Raise ValueError => (Ok false, self)
  | Raise e => (Raise e, self)
  | Ok n =>
    let self := set_node_count (PInt n) self in
    match int h (node_id self) with
    | Raise ValueError => (Ok false, self)
    | Raise e => (Raise e, self)
    | Ok i =>
      let self := set_node_id (PInt i) self in
      if n <? i then (Ok false, self)        (* node_id > node_count *)
      else if i <? 1 then (Ok false, self)   (* node_id < 1 *)
      else (Ok true, self)
    end
  end.

(** ** The LPT build *)

(** [t[1]['duration']], the sort key, and [data['duration']] in the loop. *)
Definition duration (data : gmap string Z) : result Z :=
  match data !! "duration"%string with
  | Some d => Ok d
  | None => Raise KeyError
  end.

(** [sorted] computes the key of every element first. *)
Definition decorate (t : string * gmap string Z)
  : result (Z * (string * gmap string Z)) :=
  d ← duration t.2; Ok (d, t).

(** A stable sort into descending key order: [x], which precedes all of
    [l] in the input, passes the elements of larger key only. *)
Fixpoint insert_desc {A : Type} (x : Z * A) (l : list (Z * A)) : list (Z * A) :=
  match l with
  | [] => [x]
  | y :: l' => if x.1 <? y.1 then y :: insert_desc x l' else x :: y :: l'
  end.

Definition stable_sort_desc {A : Type} (l : list (Z * A)) : list (Z * A) :=
  foldr insert_desc [] l.

(** [sorted(self.lpt_data.items(), key=lambda t: t[1]['duration'],
    reverse=True)]: Python's sort is stable, also with [reverse=True]. *)
Definition sorted_lpt_data (data : dict) : result dict :=
  keyed ← mapM decorate data; Ok (stable_sort_desc keyed).*2.

(** [min(seq, key=lambda n: n['processing_time'])] keeps the element seen
    first and replaces it only by one of strictly smaller key.  [best] is
    the index of the element kept so far, [i] the index of the head of
    [l]. *)
Fixpoint min_from (best : nat) (best_key : Z) (i : nat) (l : list lpt_node) : nat :=
  match l with
  | [] => best
  | n :: l' =>
    if processing_time n <? best_key
    then min_from i (processing_time n) (S i) l'
    else min_from best best_key (S i) l'
  end.

(** The index in [l] of the element [min] returns; [min] of an empty
    sequence raises [ValueError]. *)
Definition py_min (l : list lpt_node) : result nat :=
  match l with
  | [] => Raise ValueError
  | n :: l' => Ok (min_from 0 (processing_time n) 1 l')
  end.

(** The two statements that mutate the chosen node. *)
Definition add_object (obj : string) (d : Z) (node : lpt_node) : lpt_node :=
  {| processing_time := processing_time node + d;
     objects := {[obj]} ∪ objects node |}.

(** The [for obj, data in sorted_lpt_data] loop over [self.lpt_nodes];
    [self.lpt_nodes[1:]] shifts the indices by one. *)
Fixpoint lpt_loop (nodes : list lpt_node) (sorted : dict)
  : result unit * list lpt_node :=
  match sorted with
  | [] => (Ok (), nodes)
  | (obj, data) :: rest =>
    match py_min (drop 1 nodes) with
    | Raise e => (Raise e, nodes)
    | Ok j =>
      match duration data with
      | Raise e => (Raise e, nodes)
      | Ok d => lpt_loop (alter (add_object obj d) (S j) nodes) rest
      end
    end
  end.

(** The list comprehension over [range(self.node_count + 1)]. *)
Definition fresh_nodes (n : Z) : list lpt_node :=
  replicate (Z.to_nat (n + 1)) {| processing_time := 0; objects := ∅ |}.

(** The body of [if self.algorithm == self.ALGORITHM_LEAST_PROCESSING_TIME];
    the three [except] clauses log and re-raise. *)
Definition load_lpt (h : Host) (n : Z) (self : Plugin) : result unit * Plugin :=
  match lpt_data_filepath self with
  | None => (Raise AssertionError, self)
  | Some path =>
    if bool_decide (path = EmptyString) then (Raise AssertionError, self) else
    match open_read h path with
    | None => (Raise IOError, self)
    | Some content =>
      match json_load h content with
      | None => (Raise ValueError, self)
      | Some data =>
        let self := set_lpt_data (Some data) self in
        let self := set_lpt_nodes (Some (fresh_nodes n)) self in
        match sorted_lpt_data data with
        | Raise e => (Raise e, self)
        | Ok sorted =>
          let '(r, nodes) := lpt_loop (fresh_nodes n) sorted in
          (r, set_lpt_nodes (Some nodes) self)
        end
      end
    end
  end.

(** The table the build leaves in [self.lpt_nodes] for [n] nodes. *)
Definition lpt_build (n : Z) (data : dict) : result (list lpt_node) :=
  sorted ← sorted_lpt_data data;
  match lpt_loop (fresh_nodes n) sorted with
  | (Ok _, nodes) => Ok nodes
  | (Raise e, _) => Raise e
  end.

(** ** [configure] *)

Definition configure (h : Host) (options : Options) (self : Plugin)
  : result unit * Plugin :=
  let self := read_options options self in
  match _options_are_valid h self with
  | (Raise e, self) => (Raise e, self)
  | (Ok false, self) => (Ok (), set_enabled false self)
  | (Ok true, self) =>
    if distributed_disabled options then (Ok (), set_enabled false self) else
    match node_count self with
    | PInt n =>
      let self := if 1 <? n then set_enabled true self else self in
      let '(r, self) :=
        if algorithm self =? ALGORITHM_LEAST_PROCESSING_TIME
        then load_lpt h n self else (Ok (), self) in
      match r with
      | Raise e => (Raise e, self)
      | Ok _ => (Ok (), set_hash_ring (Some (seqZ 1 n)) self)
      end
    | _ => (Raise TypeError, self)  (* validation leaves an int here *)
    end
  end.

(** ** The callbacks

    A callback returns [True], [False] or [None]: [Some true],
    [Some false], [None]. *)

(** [self.hash_ring.get_node(key)]. *)
Definition ring_get_node (h : Host) (self : Plugin) (key : string)
  : result (option Z) :=
  match hash_ring self with
  | None => Raise AttributeError
  | Some nodes => Ok (get_node h nodes key)
  end.

(** [node != self.node_id]. *)
Definition differs (node : option Z) (id : pyval) : bool :=
  match node, id with
  | Some a, PInt b => negb (a =? b)
  | None, PNone => false
  | _, _ => true
  end.

(** [key in self.lpt_data]. *)
Definition lpt_data_has (self : Plugin) (key : string) : result bool :=
  match lpt_data self with
  | None => Raise TypeError
  | Some data => Ok (bool_decide (key ∈ data.*1))
  end.

(** [l[i]] for a Python list: a negative index counts from the end. *)
Definition py_index {A : Type} (l : list A) (i : Z) : result A :=
  let j := if i <? 0 then i + Z.of_nat (length l) else i in
  if j <? 0 then Raise IndexError
  else match l !! Z.to_nat j with
       | Some x => Ok x
       | None => Raise IndexError
       end.

(** [key in self.lpt_nodes[self.node_id]['objects']]. *)
Definition in_own_objects (self : Plugin) (key : string) : result bool :=
  match lpt_nodes self, node_id self with
  | Some nodes, PInt i =>
    node ← py_index nodes i; Ok (bool_decide (key ∈ objects node))
  | _, _ => Raise TypeError
  end.

(** The key [validateName] hashes: ['%s.%s' % (module, call)], from
    [test_address] or, when that raises [TypeError], from ['unknown'] and
    [str(testObject)]. *)
Definition address_key (h : Host) (t : testObject) : string :=
  let '(module, call) :=
    match test_address h t with
    | Some mc => mc
    | None => ("unknown"%string, str_of h t)
    end in
  module +:+ "." +:+ call.

Definition validateName (h : Host) (self : Plugin) (t : testObject)
  : result (option bool) :=
  node ← ring_get_node h self (address_key h t);
  if differs node (node_id self) then Ok (Some false) else Ok None.

Definition namespaced_class (cls : pyclass) : string :=
  cls_module cls +:+ "." +:+ cls_name cls.

Definition wantClass (h : Host) (self : Plugin) (cls : pyclass)
  : result (option bool) :=
  if negb (hash_by_class self) then Ok None else
  if algorithm self =? ALGORITHM_HASH_RING then
    (node ← ring_get_node h self (cls_str cls);
     if differs node (node_id self) then Ok (Some false) else Ok None)
  else if (algorithm self =? ALGORITHM_LEAST_PROCESSING_TIME) && hash_by_class self then
    known ← lpt_data_has self (namespaced_class cls);
    if (known : bool) then
      (b ← in_own_objects self (namespaced_class cls); Ok (Some b))
    else
      (node ← ring_get_node h self (cls_str cls);
       if differs node (node_id self) then Ok (Some false) else Ok None)
  else Ok None.

Definition full_name (method : pymethod) : string :=
  meth_module method +:+ "." +:+ cls_name (im_class method)
    +:+ "." +:+ meth_name method.

Definition wantMethod (h : Host) (self : Plugin) (method : pymethod)
  : result (option bool) :=
  if hash_by_class self then Ok None else
  if (algorithm self =? ALGORITHM_LEAST_PROCESSING_TIME) && negb (hash_by_class self) then
    known ← lpt_data_has self (full_name method);
    if (known : bool) then
      (b ← in_own_objects self (full_name method); Ok (Some b))
    else
      (node ← ring_get_node h self (full_name method);
       if differs node (node_id self) then Ok (Some false)
       else validateName h self (MethodItem method))
  else validateName h self (MethodItem method).

Definition wantFunction (h : Host) (self : Plugin) (function : pyfunction)
  : result (option bool) :=
  validateName h self (FunctionItem function).

(** ** The greedy rule as the specification words it

    The definitions of this section follow the specification, not the
    code; the theorems below compare the two. *)

(** The (key, duration) pairs of a record, in the order of its entries. *)
Definition key_durations (data : dict) : list (string * Z) :=
  omap (λ t, d ← t.2 !! "duration"%string; Some (t.1, d)) data.

(** Descending order of duration. *)
Definition descending (pairs : list (string * Z)) : Prop :=
  StronglySorted (λ x y, y.2 ≤ x.2) pairs.

(** Bucket [i], one of the nodes 1 to N, has the smallest accumulated
    processing time, and the lowest NodeId among those that have it. *)
Definition least_loaded (nodes : list lpt_node) (i : nat) : Prop :=
  ∃ b, (1 ≤ i)%nat ∧ nodes !! i = Some b ∧
    ∀ j c, (1 ≤ j)%nat → nodes !! j = Some c →
      processing_time b ≤ processing_time c ∧
      (processing_time c = processing_time b → (i ≤ j)%nat).

(** Each pair in turn goes to the least loaded bucket: its duration is
    added to the bucket's total and its key to the bucket's item set. *)
Inductive greedy : list lpt_node → list (string * Z) → list lpt_node → Prop :=
  | greedy_done nodes :
      greedy nodes [] nodes
  | greedy_assign nodes i b key d rest nodes' :
      least_loaded nodes i →
      nodes !! i = Some b →
      greedy (<[i := {| processing_time := processing_time b + d;
                        objects := {[key]} ∪ objects b |}]> nodes) rest nodes' →
      greedy nodes ((key, d) :: rest) nodes'.

(** ** Predicates of the statements *)

(** Every entry of the record has the [duration] field. *)
Definition timed (data : dict) : Prop :=
  Forall (λ t, is_Some (t.2 !! "duration"%string)) data.

(** The entries of duration [d], in the order of the record. *)
Definition ties (d : Z) (data : dict) : dict :=
  filter (λ t, t.2 !! "duration"%string = Some d) data.

(** The order of a sort by descending key. *)
Definition desc {A : Type} : relation (Z * A) := λ x y, y.1 ≤ x.1.

(** The key next to each entry is the entry's duration. *)
Definition decorated (keyed : list (Z * (string * gmap string Z))) : Prop :=
  Forall (λ p, p.2.2 !! "duration"%string = Some p.1) keyed.

(** Index [r] holds a smallest processing time of [l], and no index
    before it does. *)
Definition first_min (l : list lpt_node) (r : nat) : Prop :=
  ∃ b, l !! r = Some b ∧
    ∀ j c, l !! j = Some c →
      processing_time b ≤ processing_time c ∧
      (processing_time c = processing_time b → (r ≤ j)%nat).

(** The item sets of [nodes] hold the keys [D], each key in one set, and
    the dummy node 0 holds none. *)
Definition partitions (nodes : list lpt_node) (D : gset string) : Prop :=
  (∀ k, k ∈ D ↔ ∃ i b, nodes !! i = Some b ∧ k ∈ objects b) ∧
  (∀ i j bi bj, i ≠ j → nodes !! i = Some bi → nodes !! j = Some bj →
     objects bi ## objects bj) ∧
  (∃ b0, nodes !! 0%nat = Some b0 ∧ objects b0 = ∅).

(** The options do not validate: the node count or the node number does
    not parse as an integer, or the node number is not between 1 and the
    node count. *)
Definition invalid (h : Host) (options : Options) : Prop :=
  int h (to_py (distributed_nodes options)) = Raise ValueError ∨
  int h (to_py (distributed_node_number options)) = Raise ValueError ∨
  ∃ n i, int h (to_py (distributed_nodes options)) = Ok n ∧
         int h (to_py (distributed_node_number options)) = Ok i ∧
         ¬ (1 ≤ i ≤ n).

(** The plugin as [configure] has it when it reaches the algorithm, for
    [n] nodes of which this is number [i]. *)
Definition validated (options : Options) (self : Plugin) (n i : Z) : Plugin :=
  let s1 := set_node_id (PInt i) (set_node_count (PInt n) (read_options options self)) in
  if 1 <? n then set_enabled true s1 else s1.

(** The kinds of duration-data failure, for the options [options] on the
    host [h], each with the exception it ends in: no data source, an
    unreadable file, content that does not parse, an entry without the
    [duration] field. *)
Inductive data_failure (h : Host) (options : Options) : exn → Prop :=
  | missing_source :
      options_lpt_data_filepath options = None ∨
      options_lpt_data_filepath options = Some EmptyString →
      data_failure h options AssertionError
  | unreadable path :
      options_lpt_data_filepath options = Some path → path ≠ EmptyString →
      open_read h path = None →
      data_failure h options IOError
  | malformed path content :
      options_lpt_data_filepath options = Some path → path ≠ EmptyString →
      open_read h path = Some content → json_load h content = None →
      data_failure h options ValueError
  | schema_invalid path content data t :
      options_lpt_data_filepath options = Some path → path ≠ EmptyString →
      open_read h path = Some content → json_load h content = Some data →
      t ∈ data → t.2 !! "duration"%string = None →
      data_failure h options KeyError.

(** ** A host and data for the examples *)

#[global] Instance exn_eq_dec : EqDecision exn.
Proof. solve_decision. Defined.

#[global] Instance result_eq_dec {A} `{EqDecision A} : EqDecision (result A).
Proof. solve_decision. Defined.

#[global] Instance lpt_node_eq_dec : EqDecision lpt_node.
Proof. solve_decision. Defined.

Definition digit (a : Ascii.ascii) : option Z :=
  let n := Z.of_nat (Ascii.nat_of_ascii a) in
  if (48 <=? n) && (n <=? 57) then Some (n - 48) else None.

Fixpoint digits (acc : Z) (s : string) : option Z :=
  match s with
  | EmptyString => Some acc
  | String a s' => d ← digit a; digits (10 * acc + d) s'
  end.

(** The parser of the example host: unsigned decimal literals. *)
Definition decimal (s : string) : option Z :=
  match s with
  | EmptyString => None
  | String a s' => digits 0 s
  end.

(** The entry [{"duration": d}]. *)
Definition lasting (d : Z) : gmap string Z := {["duration"%string := d]}.

(** The record [{a:10, b:6, c:6, d:2}] of the specification's scenario. *)
Definition scenario : dict :=
  [("a"%string, lasting 10); ("b"%string, lasting 6);
   ("c"%string, lasting 6); ("d"%string, lasting 2)].

(** The table of the scenario for two nodes, after the dummy node 0. *)
Definition scenario_table : list lpt_node :=
  [{| processing_time := 0; objects := ∅ |};
   {| processing_time := 12; objects := {["a"%string; "d"%string]} |};
   {| processing_time := 12; objects := {["b"%string; "c"%string]} |}].

(** The same record with its first entry presented last. *)
Definition rotated (data : dict) : dict :=
  match data with
  | [] => []
  | t :: rest => rest ++ [t]
  end.

(** Two entries of the same duration. *)
Definition tied : dict :=
  [("b"%string, lasting 6); ("c"%string, lasting 6)].

(** A ring for the examples: the node is picked by the length of the key. *)
Definition length_ring (nodes : list Z) (key : string) : option Z :=
  nodes !! (String.length key `mod` length nodes)%nat.

(** [test_address] as nose computes it: a function is addressed by its own
    module and name, a method by the module and name of [im_class]. *)
Definition nose_address (t : testObject) : option (string * string) :=
  match t with
  | FunctionItem f => Some (func_module f, func_name f)
  | MethodItem m =>
    Some (cls_module (im_class m), cls_name (im_class m) +:+ "." +:+ meth_name m)
  end.

(** One file, [lpt.json], holds the scenario; every other path is
    unreadable and every other content malformed. *)
Definition example_host : Host :=
  {| py_int := decimal;
     open_read := λ path,
       if bool_decide (path = "lpt.json"%string) then Some "scenario"%string else None;
     json_load := λ content,
       if bool_decide (content = "scenario"%string) then Some scenario else None;
     get_node := length_ring;
     test_address := nose_address;
     str_of := λ t, "test"%string |}.

Definition example_options (nodes number : string) (disabled by_class : bool)
    (a : algorithm_name) (path : option string) : Options :=
  {| distributed_nodes := OptStr nodes; distributed_node_number := OptStr number;
     distributed_disabled := disabled; distributed_hash_by_class := by_class;
     options_algorithm := a; options_lpt_data_filepath := path |}.

(** The plugin of node [number] of two, configured on the example host
    for algorithm [a], with the record of [lpt.json]. *)
Definition example_plugin (number : string) (by_class : bool) (a : algorithm_name)
  : Plugin :=
  (configure example_host
     (example_options "2" number false by_class a (Some "lpt.json"%string)) init).2.

(** A class whose string has an even length, which the example ring maps
    to node 1. *)
Definition example_class : pyclass :=
  {| cls_module := "tests"; cls_name := "Test";
     cls_str := "<class 'tests.Test'>" |}.

(** A test class of module [tests] whose method [m] it inherits from a base
    class defined in module [base]: the function, and so
    [method.__module__], belongs to [base], while [im_class] is the test
    class. *)
Definition inherited_method : pymethod :=
  {| meth_module := "base";
     im_class := {| cls_module := "tests"; cls_name := "T";
                    cls_str := "<class 'tests.T'>" |};
     meth_name := "m" |}.

(** ** Sums over the table and the record *)

(** The sum of the processing times of [nodes]. *)
Definition total_time (nodes : list lpt_node) : Z :=
  foldr (λ b acc, processing_time b + acc) 0 nodes.

(** The sum of the durations of [pairs]. *)
Definition total_duration (pairs : list (string * Z)) : Z :=
  foldr (λ p acc, p.2 + acc) 0 pairs.


(** The untouched element of [self.lpt_nodes]. *)
Definition fresh_node : lpt_node := {| processing_time := 0; objects := ∅ |}.

(** No node of 1 to N is ahead of another by more than [D]. *)
Definition balanced (D : Z) (nodes : list lpt_node) : Prop :=
  ∀ i j bi bj, (1 ≤ i)%nat → (1 ≤ j)%nat →
    nodes !! i = Some bi → nodes !! j = Some bj →
    processing_time bi ≤ processing_time bj + D.


(** The nodes 1 to [k] are loaded and the nodes after them are not yet. *)
Definition filled (k : nat) (nodes : list lpt_node) : Prop :=
  (∀ j b, (1 ≤ j ≤ k)%nat → nodes !! j = Some b → 0 < processing_time b) ∧
  (∀ j b, (k < j)%nat → nodes !! j = Some b → processing_time b = 0).

(** ** [options]

    [options] registers six options on the parser, each with a default
    read from the environment. *)

(** The defaults of the six options. *)
Record Defaults := {
  default_nodes : optval;
  default_node_number : optval;
  default_disabled : bool;
  default_hash_by_class : bool;
  default_algorithm : string;
  default_lpt_data_filepath : option string
}.

(** [env.get(name, 1)] for an environment of strings. *)
Definition env_get_or_1 (env : gmap string string) (name : string) : optval :=
  match env !! name with
  | Some s => OptStr s
  | None => OptInt 1
  end.

(** [bool(env.get(name, False))]: a string is true when it is not empty. *)
Definition env_flag (env : gmap string string) (name : string) : bool :=
  match env !! name with
  | Some s => negb (bool_decide (s = EmptyString))
  | None => false
  end.

Definition options (env : gmap string string) : Defaults :=
  {| default_nodes := env_get_or_1 env "NOSE_NODES";
     default_node_number := env_get_or_1 env "NOSE_NODE_NUMBER";
     default_disabled := false;
     default_hash_by_class := env_flag env "NOSE_HASH_BY_CLASS";
     default_algorithm :=
       default "hash-ring"%string (env !! "NOSE_DISTRIBUTION_ALGORITHM"%string);
     default_lpt_data_filepath := env !! "NOSE_LPT_DATA_FILEPATH"%string |}.

(** The [choices] of [--algorithm]: the names the parser accepts. *)
Definition algorithm_choice (s : string) : option algorithm_name :=
  if bool_decide (s = "hash-ring"%string) then Some hash_ring_name
  else if bool_decide (s = "least-processing-time"%string)
       then Some least_processing_time_name
  else None.

(** The options object of a run whose command line has none of the six
    flags: the defaults, where the default algorithm is one of the
    choices. *)
Definition without_flags (d : Defaults) : option Options :=
  a ← algorithm_choice (default_algorithm d);
  Some {| distributed_nodes := default_nodes d;
          distributed_node_number := default_node_number d;
          distributed_disabled := default_disabled d;
          distributed_hash_by_class := default_hash_by_class d;
          options_algorithm := a;
          options_lpt_data_filepath := default_lpt_data_filepath d |}.

(** An environment for the examples. *)
Definition example_env : gmap string string :=
  {[ "NOSE_HASH_BY_CLASS"%string := "0"%string ]}.

(** Every entry of a concrete record has its duration. *)
Ltac scenario_timed :=
  repeat constructor; eexists; vm_compute; reflexivity.

(** * Properties *)

(** ** Sorting *)

Section Sorting.
Context {A : Type}.
Implicit Types (x y : Z * A) (l : list (Z * A)).

Lemma insert_desc_perm x l : insert_desc x l ≡ₚ x :: l.
Proof.
  induction l as [|y l IH]; simpl; [done|].
  case_match; [|done].
  rewrite IH. apply Permutation_swap.
Qed.

Lemma stable_sort_desc_perm l : stable_sort_desc l ≡ₚ l.
Proof.
  induction l as [|x l IH]; simpl; [done|].
  by rewrite insert_desc_perm, IH.
Qed.

Lemma insert_desc_sorted x l :
  StronglySorted desc l → StronglySorted desc (insert_desc x l).
Proof.
  induction 1 as [|y l Hl IH Hy]; simpl.
  - repeat constructor.
  - case_match eqn:Hlt.
    + apply Z.ltb_lt in Hlt. constructor; [done|].
      rewrite insert_desc_perm. constructor; [unfold desc; lia | done].
    + apply Z.ltb_ge in Hlt. constructor; [by constructor|].
      constructor; [done|].
      eapply Forall_impl; [exact Hy|]. unfold desc. intros; simpl in *; lia.
Qed.

Lemma stable_sort_desc_sorted l : StronglySorted desc (stable_sort_desc l).
Proof.
  induction l as [|x l IH]; simpl; [constructor|].
  by apply insert_desc_sorted.
Qed.

(** Stability: the sort never reorders two elements of equal key. *)
Lemma insert_desc_filter d x l :
  filter (λ p, p.1 = d) (insert_desc x l) = filter (λ p, p.1 = d) (x :: l).
Proof.
  induction l as [|y l IH]; simpl; [done|].
  case_match eqn:Hlt; [|done].
  apply Z.ltb_lt in Hlt.
  rewrite !filter_cons in *. rewrite IH.
  repeat case_decide; try done; lia.
Qed.

Lemma stable_sort_desc_filter d l :
  filter (λ p, p.1 = d) (stable_sort_desc l) = filter (λ p, p.1 = d) l.
Proof.
  induction l as [|x l IH]; simpl; [done|].
  rewrite insert_desc_filter, !filter_cons, IH. done.
Qed.

(** A descending list is determined by its classes of equal key. *)
Lemma descending_ties_unique l1 l2 :
  StronglySorted desc l1 → StronglySorted desc l2 →
  (∀ d, filter (λ p, p.1 = d) l1 = filter (λ p, p.1 = d) l2) →
  l1 = l2.
Proof.
  intros H1. revert l2.
  induction H1 as [|x l1 Hl1 IH Hx]; intros l2 H2 Heq.
  - destruct l2 as [|y l2]; [done|].
    specialize (Heq y.1). rewrite filter_cons_True in Heq by done. done.
  - destruct H2 as [|y l2 Hl2 Hy].
    { specialize (Heq x.1). rewrite filter_cons_True in Heq by done. done. }
    assert (x.1 = y.1) as Hk.
    { destruct (Z.lt_trichotomy x.1 y.1) as [Hlt|[?|Hlt]]; [|done|]; exfalso.
      - pose proof (Heq y.1) as He.
        rewrite (filter_cons_True _ y) in He by done.
        rewrite filter_cons_False in He by lia.
        assert (y ∈ filter (λ p, p.1 = y.1) l1) as Hin by (rewrite He; left).
        apply list_elem_of_filter in Hin as [_ Hin].
        rewrite Forall_forall in Hx. specialize (Hx _ Hin). unfold desc in Hx. lia.
      - pose proof (Heq x.1) as He.
        rewrite (filter_cons_True _ x) in He by done.
        rewrite filter_cons_False in He by lia.
        assert (x ∈ filter (λ p, p.1 = x.1) l2) as Hin by (rewrite <- He; left).
        apply list_elem_of_filter in Hin as [_ Hin].
        rewrite Forall_forall in Hy. specialize (Hy _ Hin). unfold desc in Hy. lia. }
    pose proof (Heq x.1) as He.
    rewrite (filter_cons_True _ x) in He by done.
    rewrite (filter_cons_True _ y) in He by done.
    injection He as -> He. f_equal. apply IH; [done|].
    intros d. specialize (Heq d). rewrite !filter_cons in Heq.
    case_decide; [|done]. by injection Heq.
Qed.
End Sorting.

(** ** The choice of [min] *)

Section Min.
Implicit Types (l pre : list lpt_node) (b c : lpt_node).

Lemma min_from_first_min l pre best b :
  pre !! best = Some b →
  (∀ j c, pre !! j = Some c →
     processing_time b ≤ processing_time c ∧
     (processing_time c = processing_time b → (best ≤ j)%nat)) →
  first_min (pre ++ l) (min_from best (processing_time b) (length pre) l).
Proof.
  revert pre best b. induction l as [|n l IH]; intros pre best b Hb Hmin; simpl.
  - rewrite app_nil_r. by exists b.
  - pose proof (lookup_lt_Some _ _ _ Hb) as Hlt.
    replace (pre ++ n :: l) with ((pre ++ [n]) ++ l) by (by rewrite <- app_assoc).
    replace (S (length pre)) with (length (pre ++ [n])) by (rewrite length_app; simpl; lia).
    case_match eqn:Hcmp.
    + apply Z.ltb_lt in Hcmp. apply IH.
      * by rewrite lookup_app_r, Nat.sub_diag.
      * intros j c Hc. destruct (decide (j < length pre)%nat) as [Hj|Hj].
        -- rewrite lookup_app_l in Hc by done. destruct (Hmin _ _ Hc). lia.
        -- apply lookup_lt_Some in Hc as Hj'. rewrite length_app in Hj'. simpl in Hj'.
           replace j with (length pre) in * by lia.
           rewrite lookup_app_r, Nat.sub_diag in Hc by done.
           injection Hc as <-. lia.
    + apply Z.ltb_ge in Hcmp. apply IH.
      * by rewrite lookup_app_l.
      * intros j c Hc. destruct (decide (j < length pre)%nat) as [Hj|Hj].
        -- rewrite lookup_app_l in Hc by done. by apply Hmin.
        -- apply lookup_lt_Some in Hc as Hj'. rewrite length_app in Hj'. simpl in Hj'.
           replace j with (length pre) in * by lia.
           rewrite lookup_app_r, Nat.sub_diag in Hc by done.
           injection Hc as <-. lia.
Qed.

Lemma py_min_first_min l : l ≠ [] → ∃ r, py_min l = Ok r ∧ first_min l r.
Proof.
  destruct l as [|n l]; [done|]. intros _. simpl. eexists. split; [done|].
  apply (min_from_first_min l [n] 0%nat n); [done|].
  intros [|j] c Hc; simpl in Hc; [|done]. injection Hc as <-. lia.
Qed.

Lemma py_min_least_loaded (nodes : list lpt_node) :
  (2 ≤ length nodes)%nat →
  ∃ j, py_min (drop 1 nodes) = Ok j ∧ least_loaded nodes (S j).
Proof.
  intros Hlen. destruct (py_min_first_min (drop 1 nodes)) as (j & Hj & b & Hb & Hmin).
  { destruct nodes as [|? [|? ?]]; simpl in *; [lia|lia|done]. }
  exists j. split; [done|]. exists b. rewrite lookup_drop in Hb.
  split; [lia|]. split; [done|].
  intros [|k] c Hk Hc; [lia|].
  destruct (Hmin k c) as [? ?]; [by rewrite lookup_drop|]. split; [done|]. lia.
Qed.
End Min.

(** ** The loop of the build *)

Section Loop.
Implicit Types (nodes : list lpt_node) (sorted data : dict).

Lemma alter_as_insert {A} (f : A → A) (l : list A) i b :
  l !! i = Some b → alter f i l = <[i := f b]> l.
Proof.
  intros Hb. apply list_eq. intros j.
  pose proof (lookup_lt_Some _ _ _ Hb).
  destruct (decide (i = j)) as [<-|Hne].
  - by rewrite list_lookup_alter_eq, list_lookup_insert_eq, Hb.
  - by rewrite list_lookup_alter_ne, list_lookup_insert_ne.
Qed.

Lemma key_durations_cons t d data :
  t.2 !! "duration"%string = Some d →
  key_durations (t :: data) = (t.1, d) :: key_durations data.
Proof. intros Hd. unfold key_durations. simpl. by rewrite Hd. Qed.

(** The loop runs to its end and takes the steps of the greedy rule. *)
Lemma lpt_loop_greedy sorted nodes :
  (2 ≤ length nodes)%nat → timed sorted →
  ∃ nodes', lpt_loop nodes sorted = (Ok (), nodes') ∧
    greedy nodes (key_durations sorted) nodes' ∧
    length nodes' = length nodes.
Proof.
  intros Hlen Ht. revert nodes Hlen.
  induction Ht as [|[obj entry] sorted [d Hd] _ IH]; intros nodes Hlen.
  - exists nodes. simpl. split; [done|]. split; [constructor | done].
  - destruct (py_min_least_loaded nodes Hlen) as (j & Hj & Hleast).
    pose proof Hleast as (b & _ & Hb & _).
    destruct (IH (alter (add_object obj d) (S j) nodes)) as (nodes' & Hrun & Hgr & Hl).
    { by rewrite length_alter. }
    exists nodes'. simpl in Hd.
    rewrite (key_durations_cons (obj, entry) d) by done.
    simpl. rewrite Hj. unfold duration. rewrite Hd.
    split; [done|]. rewrite length_alter in Hl. split; [|done].
    econstructor; [done..|].
    by rewrite (alter_as_insert _ _ _ b) in Hgr.
Qed.
End Loop.

(** ** The sorted record *)

Section Sorted.
Implicit Types (data sorted : dict) (keyed : list (Z * (string * gmap string Z))).

Lemma decorate_eq (t : string * gmap string Z) :
  decorate t =
  match t.2 !! "duration"%string with
  | Some d => Ok (d, t)
  | None => Raise KeyError
  end.
Proof. unfold decorate, duration. by destruct (t.2 !! _). Qed.

Lemma mapM_cons (t : string * gmap string Z) data :
  mapM decorate (t :: data) =
  p ← decorate t; keyed ← mapM decorate data; Ok (p :: keyed).
Proof. done. Qed.

Lemma mapM_decorate_Ok data keyed :
  mapM decorate data = Ok keyed → keyed.*2 = data ∧ decorated keyed.
Proof.
  revert keyed. induction data as [|t data IH]; intros keyed.
  - intros [= <-]. split; [done | constructor].
  - rewrite mapM_cons, decorate_eq.
    destruct (t.2 !! "duration"%string) eqn:Ht; simpl; [|done].
    destruct (mapM decorate data) as [k|] eqn:Hk; simpl; [|done].
    intros [= <-]. destruct (IH k eq_refl) as [<- Hall]. split; [done|].
    by constructor.
Qed.

Lemma mapM_decorate_timed data :
  timed data → ∃ keyed, mapM decorate data = Ok keyed.
Proof.
  induction 1 as [|t data [d Hd] _ [keyed IH]]; [by eexists|].
  exists ((d, t) :: keyed). by rewrite mapM_cons, decorate_eq, Hd, IH.
Qed.

Lemma mapM_decorate_Raise data e :
  mapM decorate data = Raise e → e = KeyError ∧ ¬ timed data.
Proof.
  induction data as [|t data IH]; [done|].
  rewrite mapM_cons, decorate_eq.
  destruct (t.2 !! "duration"%string) eqn:Ht; simpl.
  - destruct (mapM decorate data) as [k|e'] eqn:Hk; simpl; [done|].
    intros [= <-]. destruct (IH eq_refl) as [-> Hn]. split; [done|].
    intros Hall. apply Hn. by inversion Hall.
  - intros [= <-]. split; [done|]. intros Hall. inversion Hall as [|? ? [? ?]]; congruence.
Qed.

Lemma decorated_key_durations keyed :
  decorated keyed → key_durations keyed.*2 = (λ p, (p.2.1, p.1)) <$> keyed.
Proof.
  induction 1 as [|p keyed Hp _ IH]; [done|].
  rewrite fmap_cons, (key_durations_cons _ p.1), IH by done. done.
Qed.

Lemma decorated_ties d keyed :
  decorated keyed → ties d keyed.*2 = (filter (λ p, p.1 = d) keyed).*2.
Proof.
  unfold ties. induction 1 as [|p keyed Hp _ IH]; [done|].
  rewrite fmap_cons, !filter_cons, IH. rewrite Hp.
  repeat case_decide; simplify_eq; done.
Qed.

Lemma decorated_timed keyed : decorated keyed → timed keyed.*2.
Proof.
  unfold decorated, timed. rewrite Forall_fmap. intros Hdec.
  eapply Forall_impl; [exact Hdec|]. intros p Hp. simpl. by rewrite Hp.
Qed.

Lemma desc_descending keyed :
  StronglySorted desc keyed → descending ((λ p, (p.2.1, p.1)) <$> keyed).
Proof.
  unfold descending. induction 1 as [|p keyed _ IH Hp]; [constructor|].
  rewrite fmap_cons. constructor; [done|].
  rewrite Forall_fmap. eapply Forall_impl; [exact Hp|]. done.
Qed.

(** What [sorted] returns on a record all of whose entries have a
    duration: the same entries, in descending order of duration, those
    of equal duration in the order of the record. *)
Lemma sorted_lpt_data_timed data :
  timed data →
  ∃ sorted, sorted_lpt_data data = Ok sorted ∧
    sorted ≡ₚ data ∧ timed sorted ∧
    descending (key_durations sorted) ∧
    ∀ d, ties d sorted = ties d data.
Proof.
  intros Ht. destruct (mapM_decorate_timed data Ht) as [keyed Hk].
  destruct (mapM_decorate_Ok _ _ Hk) as [<- Hdec].
  assert (decorated (stable_sort_desc keyed)) as Hdec'.
  { unfold decorated. by rewrite stable_sort_desc_perm. }
  exists (stable_sort_desc keyed).*2. unfold sorted_lpt_data. rewrite Hk.
  split; [done|]. split; [by rewrite stable_sort_desc_perm|].
  split; [by apply decorated_timed|]. split.
  - rewrite decorated_key_durations by done.
    apply desc_descending, stable_sort_desc_sorted.
  - intros d. by rewrite !decorated_ties, stable_sort_desc_filter.
Qed.

Lemma Forall_filter_holds {A} (P : A → Prop) `{∀ x, Decision (P x)} (l : list A) :
  Forall P (filter P l).
Proof. apply Forall_forall. intros x Hx. by apply list_elem_of_filter in Hx as [? _]. Qed.

Lemma same_key_fmap {A} (d : Z) (l : list (Z * A)) :
  Forall (λ p, p.1 = d) l → l = (λ t, (d, t)) <$> l.*2.
Proof.
  induction 1 as [|[k t] l Hk _ IH]; [done|].
  simpl in Hk. subst k. rewrite !fmap_cons. simpl. by rewrite <- IH.
Qed.

(** The sorted record depends on the record through its classes of
    equal duration only. *)
Lemma sorted_lpt_data_ties data1 data2 :
  timed data1 → timed data2 →
  (∀ d, ties d data1 = ties d data2) →
  sorted_lpt_data data1 = sorted_lpt_data data2.
Proof.
  intros Ht1 Ht2 Heq.
  destruct (mapM_decorate_timed _ Ht1) as [k1 Hk1].
  destruct (mapM_decorate_timed _ Ht2) as [k2 Hk2].
  destruct (mapM_decorate_Ok _ _ Hk1) as [<- Hd1].
  destruct (mapM_decorate_Ok _ _ Hk2) as [<- Hd2].
  unfold sorted_lpt_data. rewrite Hk1, Hk2. simpl. do 2 f_equal.
  apply descending_ties_unique; [apply stable_sort_desc_sorted..|].
  intros d. rewrite !stable_sort_desc_filter.
  specialize (Heq d). rewrite !decorated_ties in Heq by done.
  rewrite (same_key_fmap d (filter (λ p, p.1 = d) k1)) by apply Forall_filter_holds.
  rewrite (same_key_fmap d (filter (λ p, p.1 = d) k2)) by apply Forall_filter_holds.
  by rewrite Heq.
Qed.
End Sorted.

(** ** The build *)

Section Build.
Implicit Types (nodes : list lpt_node) (data sorted : dict) (D : gset string).

Lemma length_fresh_nodes n : length (fresh_nodes n) = Z.to_nat (n + 1).
Proof. apply length_replicate. Qed.

Lemma lookup_fresh_nodes n i b :
  fresh_nodes n !! i = Some b → b = {| processing_time := 0; objects := ∅ |}.
Proof. unfold fresh_nodes. intros Hb. by apply lookup_replicate in Hb as [-> _]. Qed.

(** The build as the sort followed by the greedy rule. *)
Lemma lpt_build_timed n data :
  1 ≤ n → timed data →
  ∃ sorted nodes, sorted_lpt_data data = Ok sorted ∧
    sorted ≡ₚ data ∧ timed sorted ∧
    descending (key_durations sorted) ∧
    (∀ d, ties d sorted = ties d data) ∧
    lpt_loop (fresh_nodes n) sorted = (Ok (), nodes) ∧
    lpt_build n data = Ok nodes ∧
    length nodes = Z.to_nat (n + 1) ∧
    greedy (fresh_nodes n) (key_durations sorted) nodes.
Proof.
  intros Hn Ht.
  destruct (sorted_lpt_data_timed data Ht) as (sorted & Hs & Hp & Hts & Hd & Hties).
  destruct (lpt_loop_greedy sorted (fresh_nodes n)) as (nodes & Hrun & Hgr & Hlen);
    [rewrite length_fresh_nodes; lia | done |].
  exists sorted, nodes. unfold lpt_build. rewrite Hs. simpl. rewrite Hrun.
  rewrite length_fresh_nodes in Hlen. done.
Qed.

Lemma partitions_fresh n : 1 ≤ n → partitions (fresh_nodes n) ∅.
Proof.
  intros Hn. split; [|split].
  - intros k. split; [set_solver|].
    intros (i & b & Hb & Hk). apply lookup_fresh_nodes in Hb as ->. done.
  - intros i j bi bj _ Hi _. apply lookup_fresh_nodes in Hi as ->. simpl. set_solver.
  - exists {| processing_time := 0; objects := ∅ |}. split; [|done].
    unfold fresh_nodes. apply lookup_replicate. split; [done | lia].
Qed.

Lemma partitions_assign nodes D i b key d :
  partitions nodes D → (1 ≤ i)%nat → nodes !! i = Some b → key ∉ D →
  partitions (<[i := {| processing_time := processing_time b + d;
                        objects := {[key]} ∪ objects b |}]> nodes)
             ({[key]} ∪ D).
Proof.
  intros (Hcover & Hdisj & b0 & Hb0 & Hempty) Hi Hb Hkey.
  pose proof (lookup_lt_Some _ _ _ Hb) as Hlt.
  split; [|split].
  - intros k. split.
    + intros [->%elem_of_singleton | Hk]%elem_of_union.
      * exists i. eexists. rewrite list_lookup_insert_eq by done.
        split; [done|]. simpl. set_solver.
      * apply Hcover in Hk as (j & c & Hc & Hk).
        destruct (decide (i = j)) as [<-|Hne].
        -- exists i. eexists. rewrite list_lookup_insert_eq by done.
           split; [done|]. simpl. simplify_eq. set_solver.
        -- exists j, c. by rewrite list_lookup_insert_ne.
    + intros (j & c & Hc & Hk).
      apply list_lookup_insert_Some in Hc as [(<- & <- & _) | (Hne & Hc)].
      * simpl in Hk. apply elem_of_union in Hk as [Hk | Hk]; [set_solver|].
        apply elem_of_union_r, Hcover. eauto.
      * apply elem_of_union_r, Hcover. eauto.
  - assert (∀ j c, i ≠ j → nodes !! j = Some c → ({[key]} ∪ objects b) ## objects c) as Hnew.
    { intros j c Hne Hc. specialize (Hdisj i j b c Hne Hb Hc).
      assert (key ∉ objects c) by (intros ?; apply Hkey, Hcover; eauto).
      set_solver. }
    intros j1 j2 c1 c2 Hne H1 H2.
    apply list_lookup_insert_Some in H1 as [(<- & <- & _) | (Hne1 & H1)];
      apply list_lookup_insert_Some in H2 as [(<- & <- & _) | (Hne2 & H2)]; simpl.
    + done.
    + exact (Hnew _ _ Hne H2).
    + symmetry. apply (Hnew j1 c1); [done | exact H1].
    + exact (Hdisj _ _ _ _ Hne H1 H2).
  - exists b0. split; [|done]. rewrite list_lookup_insert_ne by lia. done.
Qed.

(** The greedy rule keeps the item sets a partition of the keys it has
    assigned: by induction on its steps. *)
Lemma greedy_partitions nodes pairs nodes' D :
  greedy nodes pairs nodes' →
  partitions nodes D → NoDup pairs.*1 → (∀ k, k ∈ pairs.*1 → k ∉ D) →
  partitions nodes' (list_to_set pairs.*1 ∪ D).
Proof.
  intros Hgr. revert D.
  induction Hgr as [nodes | nodes i b key d rest nodes' Hleast Hb _ IH];
    intros D Hpart Hnd Hfresh.
  - simpl. by rewrite (left_id_L ∅ (∪)).
  - rewrite fmap_cons in *. simpl in *. apply NoDup_cons in Hnd as [Hkey Hnd].
    destruct Hleast as (? & Hi & _).
    replace ({[key]} ∪ list_to_set rest.*1 ∪ D)
      with (list_to_set rest.*1 ∪ ({[key]} ∪ D)) by set_solver.
    apply IH; [|done|].
    + apply partitions_assign; [done..|]. apply Hfresh. left.
    + intros k Hk. specialize (Hfresh k (list_elem_of_further _ _ _ Hk)). set_solver.
Qed.

Lemma key_durations_keys data : timed data → (key_durations data).*1 = data.*1.
Proof.
  induction 1 as [|t data [d Hd] _ IH]; [done|].
  rewrite (key_durations_cons t d), !fmap_cons, IH by done. done.
Qed.
End Build.

(** C1. The build is the greedy rule: it sorts the (key, duration) pairs
    of the record into descending order of duration and then, for each pair
    in that order, picks among the nodes 1 to [n] the one of smallest
    accumulated processing time, the lowest index among equals, adds the
    duration to that node's total and the key to its item set. *)
Theorem lpt_build_greedy (n : Z) (data : dict) :
  1 ≤ n → timed data →
  ∃ sorted nodes,
    sorted_lpt_data data = Ok sorted ∧
    sorted ≡ₚ data ∧
    descending (key_durations sorted) ∧
    lpt_build n data = Ok nodes ∧
    length nodes = Z.to_nat (n + 1) ∧
    greedy (fresh_nodes n) (key_durations sorted) nodes.
Proof.
  intros Hn Ht.
  destruct (lpt_build_timed n data Hn Ht)
    as (sorted & nodes & Hs & Hp & _ & Hd & _ & _ & Hb & Hlen & Hgr).
  by exists sorted, nodes.
Qed.

Lemma lpt_build_greedy_witness :
  ∃ sorted nodes,
    sorted_lpt_data scenario = Ok sorted ∧
    sorted ≡ₚ scenario ∧
    descending (key_durations sorted) ∧
    lpt_build 2 scenario = Ok nodes ∧
    length nodes = Z.to_nat (2 + 1) ∧
    greedy (fresh_nodes 2) (key_durations sorted) nodes.
Proof.
  apply (lpt_build_greedy 2 scenario); [lia | scenario_timed].
Defined.

(** C3. After the build, for a record of distinct keys all of which have a
    duration, every key of the record is in the item set of exactly one of
    the nodes 1 to [n]: the item sets cover the keys, hold nothing else,
    and are pairwise disjoint. *)
Theorem lpt_build_partition (n : Z) (data : dict) :
  1 ≤ n → NoDup data.*1 → timed data →
  ∃ nodes,
    lpt_build n data = Ok nodes ∧
    length nodes = Z.to_nat (n + 1) ∧
    (∀ k, k ∈ data.*1 ↔
       ∃ i b, (1 ≤ i ≤ Z.to_nat n)%nat ∧ nodes !! i = Some b ∧ k ∈ objects b) ∧
    (∀ i j bi bj, i ≠ j → nodes !! i = Some bi → nodes !! j = Some bj →
       objects bi ## objects bj).
Proof.
  intros Hn Hnd Ht.
  destruct (lpt_build_timed n data Hn Ht)
    as (sorted & nodes & _ & Hp & Hts & _ & _ & _ & Hb & Hlen & Hgr).
  exists nodes. split; [done|]. split; [done|].
  assert (sorted.*1 ≡ₚ data.*1) as Hkeys by (by rewrite Hp).
  destruct (greedy_partitions _ _ _ ∅ Hgr) as (Hcover & Hdisj & b0 & Hb0 & Hempty).
  { by apply partitions_fresh. }
  { by rewrite key_durations_keys, Hkeys. }
  { set_solver. }
  split; [|done].
  intros k. rewrite key_durations_keys in Hcover by done.
  rewrite <- Hkeys. split.
  - intros Hk. destruct (proj1 (Hcover k)) as (i & b & Hi & Hin); [set_solver|].
    exists i, b. split; [|done].
    pose proof (lookup_lt_Some _ _ _ Hi).
    destruct i as [|i]; [simplify_eq; set_solver | lia].
  - intros (i & b & _ & Hi & Hin).
    assert (k ∈ list_to_set sorted.*1 ∪ (∅ : gset string)) as Hk by (apply Hcover; eauto).
    set_solver.
Qed.

Lemma lpt_build_partition_witness :
  ∃ nodes,
    lpt_build 2 scenario = Ok nodes ∧
    length nodes = Z.to_nat (2 + 1) ∧
    (∀ k, k ∈ scenario.*1 ↔
       ∃ i b, (1 ≤ i ≤ Z.to_nat 2)%nat ∧ nodes !! i = Some b ∧ k ∈ objects b) ∧
    (∀ i j bi bj, i ≠ j → nodes !! i = Some bi → nodes !! j = Some bj →
       objects bi ## objects bj).
Proof.
  apply (lpt_build_partition 2 scenario); [lia | | scenario_timed].
  compute_done.
Defined.

(** ** The order of the record *)

Section Order.
Implicit Types (data sorted : dict).

Lemma elem_of_durations data t d :
  t ∈ data → t.2 !! "duration"%string = Some d → d ∈ (key_durations data).*2.
Proof.
  intros Ht Hd. apply list_elem_of_fmap. exists (t.1, d). split; [done|].
  unfold key_durations. apply list_elem_of_omap. exists t. split; [done|].
  by rewrite Hd.
Qed.

Lemma timed_perm data1 data2 : data1 ≡ₚ data2 → timed data1 → timed data2.
Proof. unfold timed. by intros ->. Qed.

Lemma ties_perm d data1 data2 : data1 ≡ₚ data2 → ties d data1 ≡ₚ ties d data2.
Proof. unfold ties. by intros ->. Qed.

Lemma ties_cons d t data :
  ties d (t :: data) =
  if decide (t.2 !! "duration"%string = Some d) then t :: ties d data else ties d data.
Proof. reflexivity. Qed.

Lemma elem_of_ties d t data :
  t ∈ ties d data ↔ t.2 !! "duration"%string = Some d ∧ t ∈ data.
Proof. unfold ties. by rewrite list_elem_of_filter. Qed.

(** Among distinct durations a class of equal duration has one entry at
    most. *)
Lemma ties_distinct d data :
  timed data → NoDup (key_durations data).*2 → (length (ties d data) ≤ 1)%nat.
Proof.
  induction 1 as [|t data [d' Hd'] Ht IH]; [simpl; lia|].
  rewrite (key_durations_cons t d'), fmap_cons by done. simpl.
  intros [Hfresh Hnd]%NoDup_cons. specialize (IH Hnd).
  rewrite ties_cons. case_decide as Hd; [|done].
  rewrite Hd' in Hd. injection Hd as ->.
  destruct (ties d data) as [|x rest] eqn:Hf; [simpl; lia|].
  exfalso. apply Hfresh.
  assert (x ∈ ties d data) as Hx by (rewrite Hf; left).
  apply elem_of_ties in Hx as [Hxd Hx]. by eapply elem_of_durations.
Qed.

Lemma short_perm_eq {A} (l1 l2 : list A) :
  (length l1 ≤ 1)%nat → l1 ≡ₚ l2 → l1 = l2.
Proof.
  intros Hlen Hp. destruct l1 as [|x [|y l1]]; simpl in Hlen; [| |lia].
  - by apply Permutation_nil_l in Hp.
  - by apply Permutation_singleton_l in Hp.
Qed.

Lemma ties_perm_distinct data1 data2 :
  timed data1 → data1 ≡ₚ data2 → NoDup (key_durations data1).*2 →
  ∀ d, ties d data1 = ties d data2.
Proof.
  intros Ht Hp Hnd d. apply short_perm_eq; [by apply ties_distinct | by apply ties_perm].
Qed.

Lemma rotated_perm data : data ≡ₚ rotated data.
Proof. destruct data as [|t rest]; [done|]. apply Permutation_cons_append. Qed.

Lemma lpt_build_sorted n data1 data2 :
  sorted_lpt_data data1 = sorted_lpt_data data2 →
  lpt_build n data1 = lpt_build n data2.
Proof. unfold lpt_build. by intros ->. Qed.
End Order.

(** C2, as the code has it.  The sort compares durations only and is
    stable: the sorted sequence holds the entries of the record in
    descending order of duration, those of equal duration in the order in
    which the record presents them.  So two presentations of a record that
    list the entries of each duration in the same order give the same
    sorted sequence and the same table for every number of nodes; this is
    the case whenever no two entries have the same duration. *)
Theorem sorted_lpt_data_stable (data1 data2 : dict) :
  timed data1 → data1 ≡ₚ data2 →
  ∃ sorted,
    sorted_lpt_data data1 = Ok sorted ∧
    sorted ≡ₚ data1 ∧
    descending (key_durations sorted) ∧
    (∀ d, ties d sorted = ties d data1) ∧
    ((∀ d, ties d data1 = ties d data2) →
       sorted_lpt_data data2 = Ok sorted ∧
       ∀ n, lpt_build n data2 = lpt_build n data1) ∧
    (NoDup (key_durations data1).*2 →
       sorted_lpt_data data2 = Ok sorted ∧
       ∀ n, lpt_build n data2 = lpt_build n data1).
Proof.
  intros Ht Hp.
  destruct (sorted_lpt_data_timed data1 Ht) as (sorted & Hs & Hps & _ & Hd & Hties).
  exists sorted. do 4 (split; [done|]).
  assert ((∀ d, ties d data1 = ties d data2) →
          sorted_lpt_data data2 = Ok sorted ∧
          ∀ n, lpt_build n data2 = lpt_build n data1) as Hsame.
  { intros Heq.
    assert (sorted_lpt_data data1 = sorted_lpt_data data2) as Hss
      by (apply sorted_lpt_data_ties; [done | by eapply timed_perm | done]).
    split; [by rewrite <- Hss|]. intros n. symmetry. by apply lpt_build_sorted. }
  split; [done|]. intros Hnd. by apply Hsame, ties_perm_distinct.
Qed.

Lemma sorted_lpt_data_stable_witness :
  ∃ sorted,
    sorted_lpt_data scenario = Ok sorted ∧
    sorted ≡ₚ scenario ∧
    descending (key_durations sorted) ∧
    (∀ d, ties d sorted = ties d scenario) ∧
    ((∀ d, ties d scenario = ties d (rotated scenario)) →
       sorted_lpt_data (rotated scenario) = Ok sorted ∧
       ∀ n, lpt_build n (rotated scenario) = lpt_build n scenario) ∧
    (NoDup (key_durations scenario).*2 →
       sorted_lpt_data (rotated scenario) = Ok sorted ∧
       ∀ n, lpt_build n (rotated scenario) = lpt_build n scenario).
Proof.
  apply (sorted_lpt_data_stable scenario (rotated scenario)); [scenario_timed|].
  apply rotated_perm.
Defined.

(** C2, as the specification has it, fails: the two entries of [tied] have
    the same duration, and the record presented in the other order is
    sorted into another sequence and built into another table. *)
Lemma sorted_lpt_data_order_dependent :
  tied ≡ₚ reverse tied ∧
  NoDup tied.*1 ∧
  sorted_lpt_data tied = Ok tied ∧
  sorted_lpt_data (reverse tied) = Ok (reverse tied) ∧
  sorted_lpt_data tied ≠ sorted_lpt_data (reverse tied) ∧
  lpt_build 2 tied ≠ lpt_build 2 (reverse tied).
Proof.
  split; [apply Permutation_swap|].
  split; [compute_done|].
  split; [vm_compute; reflexivity|].
  split; [vm_compute; reflexivity|].
  split; compute_done.
Qed.

(** ** The scenario of the specification *)

(** C5, as the code has it.  For the record [{a:10, b:6, c:6, d:2}] and
    two nodes, in whatever order the record presents its entries, the build
    ends with the totals 12 and 12: node 1 holds [a] and [d], node 2 holds
    [b] and [c], and the two item sets partition the four keys. *)
Theorem scenario_build (data : dict) :
  data ≡ₚ scenario →
  lpt_build 2 data = Ok scenario_table ∧
  processing_time <$> drop 1 scenario_table = [12; 12] ∧
  ⋃ (objects <$> drop 1 scenario_table) = list_to_set scenario.*1 ∧
  (∀ i j bi bj, i ≠ j →
     scenario_table !! i = Some bi → scenario_table !! j = Some bj →
     objects bi ## objects bj).
Proof.
  intros Hp. split; [|split; [done|split; [compute_done|]]].
  - symmetry in Hp. apply permutations_Permutation in Hp.
    assert (Forall (λ l, lpt_build 2 l = Ok scenario_table) (permutations scenario))
      as Hall by compute_done.
    rewrite Forall_forall in Hall. by apply Hall.
  - intros i j bi bj Hne Hi Hj.
    destruct i as [|[|[|i]]], j as [|[|[|j]]]; simplify_eq/=; compute_done.
Qed.

Lemma scenario_build_witness :
  lpt_build 2 (rotated scenario) = Ok scenario_table ∧
  processing_time <$> drop 1 scenario_table = [12; 12] ∧
  ⋃ (objects <$> drop 1 scenario_table) = list_to_set scenario.*1 ∧
  (∀ i j bi bj, i ≠ j →
     scenario_table !! i = Some bi → scenario_table !! j = Some bj →
     objects bi ## objects bj).
Proof.
  apply (scenario_build (rotated scenario)). symmetry. apply rotated_perm.
Defined.

(** C5, as the specification has it, fails: the totals of the two nodes
    are 12 and 12, which add up to the 24 of the record, and not 12 and
    16. *)
Lemma scenario_totals_not_12_16 :
  ∃ nodes,
    lpt_build 2 scenario = Ok nodes ∧
    processing_time <$> drop 1 nodes = [12; 12] ∧
    ¬ (processing_time <$> drop 1 nodes ≡ₚ [12; 16]).
Proof.
  exists scenario_table. split; [by vm_compute|]. split; [done|].
  intros Hp. assert (16 ∈ processing_time <$> drop 1 scenario_table) as Hin
    by (rewrite Hp; set_solver).
  simpl in Hin. set_solver.
Qed.

(** ** Validation and [configure] *)

Section Configure.
Context (h : Host).
Implicit Types (options : Options) (self : Plugin) (data : dict).

(** An option value is never [None]: [int] can only fail to parse it. *)
Lemma int_to_py v e : int h (to_py v) = Raise e → e = ValueError.
Proof.
  destruct v as [z|s]; simpl; [done|]. destruct (py_int h s); [done|]. by intros [= <-].
Qed.

(** The three ways through [_options_are_valid]. *)
Lemma options_are_valid_cases options self :
  let s0 := read_options options self in
  match int h (to_py (distributed_nodes options)),
        int h (to_py (distributed_node_number options)) with
  | Ok n, Ok i =>
    _options_are_valid h s0 =
      (Ok (bool_decide (1 ≤ i ≤ n)), set_node_id (PInt i) (set_node_count (PInt n) s0))
  | Ok n, Raise _ =>
    _options_are_valid h s0 = (Ok false, set_node_count (PInt n) s0)
  | Raise _, _ =>
    _options_are_valid h s0 = (Ok false, s0)
  end.
Proof.
  intros s0. unfold _options_are_valid. subst s0. simpl.
  destruct (int h (to_py (distributed_nodes options))) as [n|e] eqn:Hn.
  - destruct (int h (to_py (distributed_node_number options))) as [i|e] eqn:Hi.
    + destruct (Z.ltb_spec n i); [by rewrite bool_decide_eq_false_2 by lia|].
      destruct (Z.ltb_spec i 1); [by rewrite bool_decide_eq_false_2 by lia|].
      by rewrite bool_decide_eq_true_2 by lia.
    + by rewrite (int_to_py _ _ Hi).
  - by rewrite (int_to_py _ _ Hn).
Qed.

Lemma invalid_iff options self :
  (_options_are_valid h (read_options options self)).1 = Ok false ↔ invalid h options.
Proof.
  pose proof (options_are_valid_cases options self) as Hc. simpl in Hc.
  unfold invalid.
  destruct (int h (to_py (distributed_nodes options))) as [n|e] eqn:Hn.
  - destruct (int h (to_py (distributed_node_number options))) as [i|e'] eqn:Hi.
    + rewrite Hc. simpl. split.
      * intros [= Hb]. apply bool_decide_eq_false in Hb.
        right. right. by exists n, i.
      * intros [?|[?|(n' & i' & ? & ? & ?)]]; [done..|]. simplify_eq.
        by rewrite bool_decide_eq_false_2.
    + rewrite Hc. simpl. split; [|done]. intros _. right. left.
      by rewrite (int_to_py _ _ Hi).
  - rewrite Hc. simpl. split; [|done]. intros _. left. by rewrite (int_to_py _ _ Hn).
Qed.

Lemma valid_iff options self :
  (_options_are_valid h (read_options options self)).1 = Ok true ↔
  ∃ n i, int h (to_py (distributed_nodes options)) = Ok n ∧
         int h (to_py (distributed_node_number options)) = Ok i ∧
         1 ≤ i ≤ n.
Proof.
  pose proof (options_are_valid_cases options self) as Hc. simpl in Hc.
  destruct (int h (to_py (distributed_nodes options))) as [n|e] eqn:Hn.
  - destruct (int h (to_py (distributed_node_number options))) as [i|e'] eqn:Hi.
    + rewrite Hc. simpl. split.
      * intros [= Hb]. apply bool_decide_eq_true in Hb. by exists n, i.
      * intros (n' & i' & ? & ? & ?). simplify_eq. by rewrite bool_decide_eq_true_2.
    + rewrite Hc. simpl. split; [done|]. by intros (? & ? & ? & ? & ?).
  - rewrite Hc. simpl. split; [done|]. by intros (? & ? & ? & ? & ?).
Qed.

(** [configure] on options that do not validate. *)
Lemma configure_invalid options self :
  invalid h options →
  ∃ self', configure h options self = (Ok (), self') ∧ enabled self' = false.
Proof.
  intros Hinv. apply (invalid_iff options self) in Hinv.
  unfold configure.
  destruct (_options_are_valid h (read_options options self)) as [r s1].
  simpl in Hinv. subst r. by eexists.
Qed.

(** [configure] with the disable flag. *)
Lemma configure_disabled options self :
  distributed_disabled options = true →
  ∃ self', configure h options self = (Ok (), self') ∧ enabled self' = false.
Proof.
  intros Hdis. unfold configure.
  pose proof (options_are_valid_cases options self) as Hc. simpl in Hc.
  destruct (int h (to_py (distributed_nodes options))) as [n|e];
    [destruct (int h (to_py (distributed_node_number options))) as [i|e']|];
    rewrite Hc; try by eexists.
  destruct (bool_decide (1 ≤ i ≤ n)); [|by eexists].
  rewrite Hdis. by eexists.
Qed.

(** [configure] past validation and the disable flag. *)
Lemma configure_valid options self n i :
  int h (to_py (distributed_nodes options)) = Ok n →
  int h (to_py (distributed_node_number options)) = Ok i →
  1 ≤ i ≤ n → distributed_disabled options = false →
  configure h options self =
    match options_algorithm options with
    | hash_ring_name =>
      (Ok (), set_hash_ring (Some (seqZ 1 n)) (validated options self n i))
    | least_processing_time_name =>
      match load_lpt h n (validated options self n i) with
      | (Ok _, s) => (Ok (), set_hash_ring (Some (seqZ 1 n)) s)
      | (Raise e, s) => (Raise e, s)
      end
    end.
Proof.
  intros Hn Hi Hr Hdis. unfold configure.
  pose proof (options_are_valid_cases options self) as Hc. simpl in Hc.
  rewrite Hn, Hi in Hc. rewrite Hc, bool_decide_eq_true_2, Hdis by done.
  cbn [node_count set_node_id set_node_count].
  fold (validated options self n i).
  assert (algorithm (validated options self n i) = algorithms (options_algorithm options))
    as -> by (unfold validated; by destruct (1 <? n)).
  destruct (options_algorithm options); simpl; [done|].
  by destruct (load_lpt h n (validated options self n i)) as [[[]|e] s].
Qed.
End Configure.

(** ** Loading the duration data *)

Section Load.
Context (h : Host).
Implicit Types (options : Options) (self : Plugin) (data : dict).

Lemma sorted_lpt_data_untimed data t :
  t ∈ data → t.2 !! "duration"%string = None →
  sorted_lpt_data data = Raise KeyError.
Proof.
  intros Ht Hd. unfold sorted_lpt_data.
  destruct (mapM decorate data) as [keyed|e] eqn:Hk; simpl.
  - destruct (mapM_decorate_Ok _ _ Hk) as [<- Hdec].
    apply decorated_timed in Hdec. unfold timed in Hdec.
    rewrite Forall_forall in Hdec. destruct (Hdec _ Ht) as [d Hsome]. congruence.
  - by destruct (mapM_decorate_Raise _ _ Hk) as [-> _].
Qed.

Lemma sorted_lpt_data_Ok_timed data sorted :
  sorted_lpt_data data = Ok sorted → timed data.
Proof.
  unfold sorted_lpt_data.
  destruct (mapM decorate data) as [keyed|e] eqn:Hk; simpl; [|done].
  intros _. destruct (mapM_decorate_Ok _ _ Hk) as [<- Hdec].
  by apply decorated_timed.
Qed.

(** Every failure of the data makes [load_lpt] raise. *)
Lemma load_lpt_failure options self n e :
  lpt_data_filepath self = options_lpt_data_filepath options →
  data_failure h options e →
  ∃ s, load_lpt h n self = (Raise e, s).
Proof.
  intros Hpath Hfail. unfold load_lpt. rewrite Hpath.
  destruct Hfail as [[-> | ->] | path Hp Hne Ho | path content Hp Hne Ho Hj
                     | path content data t Hp Hne Ho Hj Ht Hd].
  - by eexists.
  - by eexists.
  - rewrite Hp, bool_decide_eq_false_2, Ho by done. by eexists.
  - rewrite Hp, bool_decide_eq_false_2, Ho, Hj by done. by eexists.
  - rewrite Hp, bool_decide_eq_false_2, Ho, Hj by done.
    rewrite (sorted_lpt_data_untimed data t) by done. by eexists.
Qed.

(** [load_lpt] returns only with the whole record loaded and built. *)
Lemma load_lpt_Ok self n s :
  load_lpt h n self = (Ok (), s) →
  ∃ path content data nodes,
    lpt_data_filepath self = Some path ∧ path ≠ EmptyString ∧
    open_read h path = Some content ∧ json_load h content = Some data ∧
    timed data ∧ lpt_build n data = Ok nodes ∧
    s = set_lpt_nodes (Some nodes)
          (set_lpt_nodes (Some (fresh_nodes n)) (set_lpt_data (Some data) self)).
Proof.
  unfold load_lpt.
  destruct (lpt_data_filepath self) as [path|] eqn:Hp; [|done].
  case_bool_decide as Hne; [done|].
  destruct (open_read h path) as [content|] eqn:Ho; [|done].
  destruct (json_load h content) as [data|] eqn:Hj; [|done].
  destruct (sorted_lpt_data data) as [sorted|e] eqn:Hs; [|done].
  destruct (lpt_loop (fresh_nodes n) sorted) as [[[]|e] nodes] eqn:Hl; [|done].
  intros [= <-]. exists path, content, data, nodes.
  do 4 (split; [done|]). split; [by eapply sorted_lpt_data_Ok_timed|].
  split; [|done]. unfold lpt_build. rewrite Hs. simpl. by rewrite Hl.
Qed.
End Load.

(** C6. After [configure], on a plugin that starts disabled as nose
    creates it, [enabled] is true only if the options validated, the
    disable flag is not set and the node count is larger than 1; with the
    disable flag set, [configure] returns with [enabled] false whatever the
    node count. *)
Theorem enabled_only_if (h : Host) (options : Options) (self : Plugin)
    (r : result unit) (self' : Plugin) :
  configure h options self = (r, self') →
  (distributed_disabled options = true → r = Ok () ∧ enabled self' = false) ∧
  (enabled self = false → enabled self' = true →
     (_options_are_valid h (read_options options self)).1 = Ok true ∧
     distributed_disabled options = false ∧
     ∃ n, int h (to_py (distributed_nodes options)) = Ok n ∧
          node_count self' = PInt n ∧ 1 < n).
Proof.
  intros Hconf. split.
  - intros Hdis. destruct (configure_disabled h options self Hdis) as (s & Hs & He).
    rewrite Hs in Hconf. by simplify_eq.
  - intros Hoff Hon.
    destruct (_options_are_valid h (read_options options self)).1 as [[]|e] eqn:Hv.
    + apply valid_iff in Hv as (n & i & Hn & Hi & Hr).
      destruct (distributed_disabled options) eqn:Hdis.
      { destruct (configure_disabled h options self Hdis) as (s & Hs & He).
        rewrite Hs in Hconf. simplify_eq. congruence. }
      split; [done|]. split; [done|]. exists n. split; [done|].
      rewrite (configure_valid h options self n i) in Hconf by done.
      assert (enabled (validated options self n i) = (1 <? n) ∧
              node_count (validated options self n i) = PInt n) as [He Hc].
      { unfold validated. destruct (1 <? n); simpl; by rewrite ?Hoff. }
      destruct (options_algorithm options).
      * simplify_eq. simpl in Hon. rewrite He in Hon. split; [done|]. by apply Z.ltb_lt.
      * unfold load_lpt in Hconf.
        repeat (case_match; simplify_eq; simpl in *; try (rewrite He in Hon);
                try (split; [done|by apply Z.ltb_lt])).
    + apply invalid_iff in Hv. destruct (configure_invalid h options self Hv) as (s & Hs & He).
      rewrite Hs in Hconf. simplify_eq. congruence.
    + pose proof (options_are_valid_cases h options self) as Hc. simpl in Hc.
      repeat case_match; rewrite Hc in Hv; done.
Qed.

Lemma enabled_only_if_witness :
  (distributed_disabled (example_options "2" "1" false false hash_ring_name None) = true →
     Ok () = Ok () ∧
     enabled (configure example_host
                (example_options "2" "1" false false hash_ring_name None) init).2 = false) ∧
  (enabled init = false →
   enabled (configure example_host
              (example_options "2" "1" false false hash_ring_name None) init).2 = true →
     (_options_are_valid example_host
        (read_options (example_options "2" "1" false false hash_ring_name None) init)).1
       = Ok true ∧
     distributed_disabled (example_options "2" "1" false false hash_ring_name None) = false ∧
     ∃ n, int example_host
            (to_py (distributed_nodes
                      (example_options "2" "1" false false hash_ring_name None))) = Ok n ∧
          node_count (configure example_host
                        (example_options "2" "1" false false hash_ring_name None) init).2
            = PInt n ∧ 1 < n).
Proof.
  apply (enabled_only_if example_host
           (example_options "2" "1" false false hash_ring_name None) init (Ok ())).
  vm_compute. reflexivity.
Defined.

(** C8. Validation fails exactly when the node count or the node number
    does not parse as an integer or the node number is not between 1 and
    the node count, and it never raises; on options that fail it,
    [configure] returns normally with [enabled] false.  This is so for a
    node number of 0, for a node number one above the node count, and for
    a node count or node number that is not numeric. *)
Theorem invalid_options_disable (h : Host) (options : Options) (self : Plugin) :
  let nodes := int h (to_py (distributed_nodes options)) in
  let number := int h (to_py (distributed_node_number options)) in
  let disabled :=
    ∃ self', configure h options self = (Ok (), self') ∧ enabled self' = false in
  ((_options_are_valid h (read_options options self)).1 = Ok false ↔ invalid h options) ∧
  ((_options_are_valid h (read_options options self)).1 = Ok true ↔ ¬ invalid h options) ∧
  (invalid h options → disabled) ∧
  (number = Ok 0 → disabled) ∧
  (∀ n, nodes = Ok n → number = Ok (n + 1) → disabled) ∧
  (nodes = Raise ValueError → disabled) ∧
  (number = Raise ValueError → disabled).
Proof.
  intros nodes number disabled.
  assert (invalid h options → disabled) as Hdis by apply configure_invalid.
  split; [apply invalid_iff|]. split; [|split; [done|]].
  - rewrite <- (invalid_iff h options self).
    pose proof (options_are_valid_cases h options self) as Hc. simpl in Hc.
    repeat case_match; rewrite Hc; simpl; try case_bool_decide; naive_solver.
  - split; [|split; [|split]].
    + intros H0. apply Hdis. unfold invalid. fold nodes number.
      destruct nodes as [n|e] eqn:Hn.
      * right. right. exists n, 0. split; [done|]. split; [done|]. lia.
      * left. by rewrite (int_to_py _ _ _ Hn).
    + intros n Hn Hi. apply Hdis. right. right. exists n, (n + 1).
      split; [done|]. split; [done|]. lia.
    + intros Hn. apply Hdis. by left.
    + intros Hi. apply Hdis. right. by left.
Qed.

(** The three cases by name, for two nodes: node number 0, node number 3,
    a node number and a node count that are no numbers. *)
Example invalid_options_examples :
  Forall (λ '(nodes, number),
            ∃ self', configure example_host
                       (example_options nodes number false false hash_ring_name None) init
                     = (Ok (), self') ∧ enabled self' = false)
         [("2", "0"); ("2", "3"); ("2", "x"); ("x", "1")]%string.
Proof. repeat constructor; eexists; vm_compute; done. Qed.

(** C9, as the code has it.  With the least-processing-time algorithm, on
    options that validated and without the disable flag, every failure of
    the duration data (no data source, an unreadable file, content that
    does not parse, an entry without a duration) makes [configure] raise;
    and [configure] returns only with the whole record of the file
    loaded, every entry with its duration, and the table built from it. *)
Theorem lpt_data_failures_abort (h : Host) (options : Options) (self : Plugin) :
  (_options_are_valid h (read_options options self)).1 = Ok true →
  distributed_disabled options = false →
  options_algorithm options = least_processing_time_name →
  (∀ e, data_failure h options e →
     ∃ self', configure h options self = (Raise e, self')) ∧
  (∀ self', configure h options self = (Ok (), self') →
     (∀ e, ¬ data_failure h options e) ∧
     ∃ path content data n nodes,
       options_lpt_data_filepath options = Some path ∧
       open_read h path = Some content ∧
       json_load h content = Some data ∧
       timed data ∧
       lpt_data self' = Some data ∧
       node_count self' = PInt n ∧
       lpt_build n data = Ok nodes ∧
       lpt_nodes self' = Some nodes).
Proof.
  intros Hv Hdis Halg.
  apply valid_iff in Hv as (n & i & Hn & Hi & Hr).
  pose proof (configure_valid h options self n i Hn Hi Hr Hdis) as Hconf.
  rewrite Halg in Hconf.
  assert (lpt_data_filepath (validated options self n i) = options_lpt_data_filepath options
          ∧ node_count (validated options self n i) = PInt n) as [Hpath Hcount].
  { unfold validated. by destruct (1 <? n). }
  assert (∀ e, data_failure h options e →
            ∃ self', configure h options self = (Raise e, self')) as Hraise.
  { intros e Hfail.
    destruct (load_lpt_failure h options _ n e Hpath Hfail) as [s Hs].
    rewrite Hconf, Hs. by eexists. }
  split; [done|]. intros self' Hok. split.
  { intros e Hfail. destruct (Hraise e Hfail) as [s Hs]. congruence. }
  rewrite Hconf in Hok.
  destruct (load_lpt h n (validated options self n i)) as [[[]|e] s] eqn:Hl; [|done].
  apply load_lpt_Ok in Hl as (path & content & data & nodes & Hp & _ & Ho & Hj & Ht & Hb & ->).
  injection Hok as <-. exists path, content, data, n, nodes. simpl.
  rewrite <- Hpath. done.
Qed.

Lemma lpt_data_failures_abort_witness :
  (∀ e, data_failure example_host
          (example_options "2" "1" false false least_processing_time_name
             (Some "missing.json"%string)) e →
     ∃ self', configure example_host
                (example_options "2" "1" false false least_processing_time_name
                   (Some "missing.json"%string)) init = (Raise e, self')) ∧
  (∀ self', configure example_host
              (example_options "2" "1" false false least_processing_time_name
                 (Some "missing.json"%string)) init = (Ok (), self') →
     (∀ e, ¬ data_failure example_host
               (example_options "2" "1" false false least_processing_time_name
                  (Some "missing.json"%string)) e) ∧
     ∃ path content data n nodes,
       options_lpt_data_filepath
         (example_options "2" "1" false false least_processing_time_name
            (Some "missing.json"%string)) = Some path ∧
       open_read example_host path = Some content ∧
       json_load example_host content = Some data ∧
       timed data ∧
       lpt_data self' = Some data ∧
       node_count self' = PInt n ∧
       lpt_build n data = Ok nodes ∧
       lpt_nodes self' = Some nodes).
Proof.
  apply (lpt_data_failures_abort example_host
           (example_options "2" "1" false false least_processing_time_name
              (Some "missing.json"%string)) init);
    vm_compute; reflexivity.
Defined.

(** C9, as the specification has it, fails: with the disable flag set, or
    with a node number out of range, [configure] returns a disabled
    configuration although the least-processing-time algorithm is chosen
    and no data source is given. *)
Lemma lpt_data_failure_without_abort :
  data_failure example_host
    (example_options "2" "1" true false least_processing_time_name None)
    AssertionError ∧
  (∃ self', configure example_host
              (example_options "2" "1" true false least_processing_time_name None) init
            = (Ok (), self') ∧ enabled self' = false) ∧
  data_failure example_host
    (example_options "2" "3" false false least_processing_time_name None)
    AssertionError ∧
  (∃ self', configure example_host
              (example_options "2" "3" false false least_processing_time_name None) init
            = (Ok (), self') ∧ enabled self' = false).
Proof.
  split; [constructor; by left|]. split; [eexists; split; vm_compute; reflexivity|].
  split; [constructor; by left|]. eexists; split; vm_compute; reflexivity.
Qed.

(** ** The callbacks *)

Section Callbacks.
Context (h : Host).
Implicit Types (self : Plugin) (nodes : list Z) (data : dict).

Lemma ring_get_node_built self nodes key :
  hash_ring self = Some nodes → ring_get_node h self key = Ok (get_node h nodes key).
Proof. unfold ring_get_node. by intros ->. Qed.

(** [validateName] excludes or defers, by the ring's node for the
    address key. *)
Lemma validateName_built self nodes t :
  hash_ring self = Some nodes →
  validateName h self t =
    Ok (if differs (get_node h nodes (address_key h t)) (node_id self)
        then Some false else None).
Proof.
  intros Hr. unfold validateName. rewrite (ring_get_node_built _ _ _ Hr). simpl.
  by case_match.
Qed.

Lemma lpt_data_has_loaded self data key :
  lpt_data self = Some data → lpt_data_has self key = Ok (bool_decide (key ∈ data.*1)).
Proof. unfold lpt_data_has. by intros ->. Qed.

Lemma in_own_objects_loaded self (table : list lpt_node) i b key :
  lpt_nodes self = Some table → node_id self = PInt i → 0 ≤ i →
  table !! Z.to_nat i = Some b →
  in_own_objects self key = Ok (bool_decide (key ∈ objects b)).
Proof.
  intros Ht Hi Hpos Hb. unfold in_own_objects, py_index. rewrite Ht, Hi.
  destruct (Z.ltb_spec i 0); [lia|]. destruct (Z.ltb_spec i 0); [lia|].
  by rewrite Hb.
Qed.
End Callbacks.

(** C7. With hash-by-class set, [wantMethod] returns [None] for every
    method; without it, [wantClass] returns [None] for every class. *)
Theorem granularity_split (h : Host) (self : Plugin) :
  (hash_by_class self = true → ∀ method, wantMethod h self method = Ok None) ∧
  (hash_by_class self = false → ∀ cls, wantClass h self cls = Ok None).
Proof.
  split; intros Hc x.
  - unfold wantMethod. by rewrite Hc.
  - unfold wantClass. by rewrite Hc.
Qed.

(** C10. Under the hash-ring algorithm, once the ring is built, no
    callback returns [True]: [wantFunction] always, [wantMethod] without
    hash-by-class and [wantClass] with it return [False] when the ring
    gives the item's key to another node and [None] otherwise, and the
    other two cases return [None].  A hit in the duration data under the
    least-processing-time algorithm returns a boolean instead, [True] when
    the key is among the objects of this node. *)
Theorem hash_ring_never_includes (h : Host) (self : Plugin) (nodes : list Z) :
  algorithm self = ALGORITHM_HASH_RING → hash_ring self = Some nodes →
  let decision key :=
    Ok (if differs (get_node h nodes key) (node_id self) then Some false else None) in
  (∀ f, wantFunction h self f = decision (address_key h (FunctionItem f))) ∧
  (∀ m, wantMethod h self m =
        if hash_by_class self then Ok None else decision (address_key h (MethodItem m))) ∧
  (∀ c, wantClass h self c =
        if hash_by_class self then decision (cls_str c) else Ok None) ∧
  (∀ f, wantFunction h self f ≠ Ok (Some true)) ∧
  (∀ m, wantMethod h self m ≠ Ok (Some true)) ∧
  (∀ c, wantClass h self c ≠ Ok (Some true)) ∧
  (∀ lpt data table i b,
     algorithm lpt = ALGORITHM_LEAST_PROCESSING_TIME →
     lpt_data lpt = Some data → lpt_nodes lpt = Some table →
     node_id lpt = PInt i → 0 ≤ i → table !! Z.to_nat i = Some b →
     (∀ m, hash_by_class lpt = false → full_name m ∈ data.*1 →
        wantMethod h lpt m = Ok (Some (bool_decide (full_name m ∈ objects b)))) ∧
     (∀ c, hash_by_class lpt = true → namespaced_class c ∈ data.*1 →
        wantClass h lpt c = Ok (Some (bool_decide (namespaced_class c ∈ objects b))))).
Proof.
  intros Halg Hring decision.
  assert (∀ f, wantFunction h self f = decision (address_key h (FunctionItem f))) as Hf.
  { intros f. unfold wantFunction. by rewrite (validateName_built h self nodes). }
  assert (∀ m, wantMethod h self m =
               if hash_by_class self then Ok None
               else decision (address_key h (MethodItem m))) as Hm.
  { intros m. unfold wantMethod. rewrite Halg. destruct (hash_by_class self); [done|].
    simpl. by rewrite (validateName_built h self nodes). }
  assert (∀ c, wantClass h self c =
               if hash_by_class self then decision (cls_str c) else Ok None) as Hc.
  { intros c. unfold wantClass. rewrite Halg. destruct (hash_by_class self); [|done].
    simpl. rewrite (ring_get_node_built h self nodes) by done. simpl.
    unfold decision. by case_match. }
  do 3 (split; [done|]).
  split; [|split; [|split]].
  - intros f. rewrite Hf. unfold decision. by destruct (differs _ _).
  - intros m. rewrite Hm. unfold decision.
    destruct (hash_by_class self); [done|]. by destruct (differs _ _).
  - intros c. rewrite Hc. unfold decision.
    destruct (hash_by_class self); [|done]. by destruct (differs _ _).
  - intros lpt data table i b Hlpt Hdata Htable Hid Hpos Hb. split.
    + intros m Hbc Hin. unfold wantMethod. rewrite Hbc, Hlpt. simpl.
      rewrite (lpt_data_has_loaded _ data) by done. simpl.
      rewrite bool_decide_eq_true_2 by done.
      by rewrite (in_own_objects_loaded _ table i b).
    + intros c Hbc Hin. unfold wantClass. rewrite Hbc, Hlpt. simpl.
      rewrite (lpt_data_has_loaded _ data) by done. simpl.
      rewrite bool_decide_eq_true_2 by done.
      by rewrite (in_own_objects_loaded _ table i b).
Qed.

Lemma hash_ring_never_includes_witness :
  let self := example_plugin "1" false hash_ring_name in
  let decision key :=
    Ok (if differs (get_node example_host [1; 2] key) (node_id self)
        then Some false else None) in
  (∀ f, wantFunction example_host self f = decision (address_key example_host (FunctionItem f))) ∧
  (∀ m, wantMethod example_host self m =
        if hash_by_class self then Ok None
        else decision (address_key example_host (MethodItem m))) ∧
  (∀ c, wantClass example_host self c =
        if hash_by_class self then decision (cls_str c) else Ok None) ∧
  (∀ f, wantFunction example_host self f ≠ Ok (Some true)) ∧
  (∀ m, wantMethod example_host self m ≠ Ok (Some true)) ∧
  (∀ c, wantClass example_host self c ≠ Ok (Some true)) ∧
  (∀ lpt data table i b,
     algorithm lpt = ALGORITHM_LEAST_PROCESSING_TIME →
     lpt_data lpt = Some data → lpt_nodes lpt = Some table →
     node_id lpt = PInt i → 0 ≤ i → table !! Z.to_nat i = Some b →
     (∀ m, hash_by_class lpt = false → full_name m ∈ data.*1 →
        wantMethod example_host lpt m = Ok (Some (bool_decide (full_name m ∈ objects b)))) ∧
     (∀ c, hash_by_class lpt = true → namespaced_class c ∈ data.*1 →
        wantClass example_host lpt c
          = Ok (Some (bool_decide (namespaced_class c ∈ objects b))))).
Proof.
  apply (hash_ring_never_includes example_host
           (example_plugin "1" false hash_ring_name) [1; 2]);
    vm_compute; reflexivity.
Defined.

(** C4, as the code has it.  Under the least-processing-time algorithm,
    for a key that the duration data does not hold, the callbacks go to the
    hash ring and never return [True].  [wantClass], with hash-by-class,
    returns [False] when the ring gives the string of the class to another
    node and [None] when it gives it to this node.  [wantMethod], without
    hash-by-class, returns [False] whenever the ring gives the full name of
    the method to another node; and where the address key of the method is
    its full name, it returns [None] when the ring gives the full name to
    this node. *)
Theorem lpt_fallback (h : Host) (self : Plugin) (nodes : list Z) (data : dict) :
  algorithm self = ALGORITHM_LEAST_PROCESSING_TIME →
  hash_ring self = Some nodes → lpt_data self = Some data →
  let elsewhere key := differs (get_node h nodes key) (node_id self) in
  (∀ c, hash_by_class self = true → namespaced_class c ∉ data.*1 →
     wantClass h self c = Ok (if elsewhere (cls_str c) then Some false else None)) ∧
  (∀ m, hash_by_class self = false → full_name m ∉ data.*1 →
     (elsewhere (full_name m) = true → wantMethod h self m = Ok (Some false)) ∧
     wantMethod h self m ≠ Ok (Some true) ∧
     (address_key h (MethodItem m) = full_name m →
        wantMethod h self m =
          Ok (if elsewhere (full_name m) then Some false else None))).
Proof.
  intros Halg Hring Hdata elsewhere. split.
  - intros c Hbc Hout. unfold wantClass. rewrite Hbc, Halg. simpl.
    rewrite (lpt_data_has_loaded _ data) by done. simpl.
    rewrite bool_decide_eq_false_2 by done.
    rewrite (ring_get_node_built h self nodes) by done. simpl.
    unfold elsewhere. by case_match.
  - intros m Hbc Hout.
    assert (wantMethod h self m =
            if elsewhere (full_name m) then Ok (Some false)
            else validateName h self (MethodItem m)) as Hm.
    { unfold wantMethod. rewrite Hbc, Halg. simpl.
      rewrite (lpt_data_has_loaded _ data) by done. simpl.
      rewrite bool_decide_eq_false_2 by done.
      by rewrite (ring_get_node_built h self nodes) by done. }
    rewrite Hm, (validateName_built h self nodes) by done.
    split; [by intros ->|]. split.
    + destruct (elsewhere _); [done|]. by destruct (differs _ _).
    + intros ->. fold (elsewhere (full_name m)). by destruct (elsewhere _).
Qed.

Lemma lpt_fallback_witness :
  let self := example_plugin "1" true least_processing_time_name in
  let elsewhere key := differs (get_node example_host [1; 2] key) (node_id self) in
  (∀ c, hash_by_class self = true → namespaced_class c ∉ scenario.*1 →
     wantClass example_host self c
       = Ok (if elsewhere (cls_str c) then Some false else None)) ∧
  (∀ m, hash_by_class self = false → full_name m ∉ scenario.*1 →
     (elsewhere (full_name m) = true → wantMethod example_host self m = Ok (Some false)) ∧
     wantMethod example_host self m ≠ Ok (Some true) ∧
     (address_key example_host (MethodItem m) = full_name m →
        wantMethod example_host self m =
          Ok (if elsewhere (full_name m) then Some false else None))).
Proof.
  apply (lpt_fallback example_host
           (example_plugin "1" true least_processing_time_name) [1; 2] scenario);
    vm_compute; reflexivity.
Defined.

(** C4, as the specification has it, fails.  The full name of
    [inherited_method] is not in the duration data and the ring gives it
    to node 1; yet node 1 excludes the method, because [validateName] then
    asks the ring about the address key, which differs and goes to node 2.
    Node 2 excludes it as well, so no node runs it.  And for a class that
    the ring gives to this node, [wantClass] defers: it does not return
    [True]. *)
Lemma lpt_fallback_disagrees :
  let node1 := example_plugin "1" false least_processing_time_name in
  let node2 := example_plugin "2" false least_processing_time_name in
  let by_class := example_plugin "1" true least_processing_time_name in
  lpt_data node1 = Some scenario ∧
  (full_name inherited_method ∉ scenario.*1) ∧
  hash_ring node1 = Some [1; 2] ∧ node_id node1 = PInt 1 ∧ node_id node2 = PInt 2 ∧
  get_node example_host [1; 2] (full_name inherited_method) = Some 1 ∧
  address_key example_host (MethodItem inherited_method) = "tests.T.m"%string ∧
  get_node example_host [1; 2] "tests.T.m" = Some 2 ∧
  wantMethod example_host node1 inherited_method = Ok (Some false) ∧
  wantMethod example_host node2 inherited_method = Ok (Some false) ∧
  (namespaced_class example_class ∉ scenario.*1) ∧
  get_node example_host [1; 2] (cls_str example_class) = Some 1 ∧
  wantClass example_host by_class example_class = Ok None.
Proof.
  repeat split; try (vm_compute; reflexivity); compute_done.
Qed.

(** ** The configured plugin

    What a [configure] that went past validation and the disable flag
    leaves behind is what the statements on the callbacks assume: the ring
    is built, and under the least-processing-time algorithm the record is
    loaded and the table has a node for this node's number.  On such a
    plugin no callback raises. *)

Section Ready.
Context (h : Host).
Implicit Types (options : Options) (self : Plugin) (data : dict).

Lemma lpt_loop_length (nodes : list lpt_node) (sorted : dict) :
  length (lpt_loop nodes sorted).2 = length nodes.
Proof.
  revert nodes. induction sorted as [|[obj entry] sorted IH]; intros nodes; [done|].
  simpl. destruct (py_min (drop 1 nodes)) as [j|e]; [|done].
  destruct (duration entry) as [d|e]; [|done].
  by rewrite IH, length_alter.
Qed.

Lemma lpt_build_length n data (nodes : list lpt_node) :
  lpt_build n data = Ok nodes → length nodes = Z.to_nat (n + 1).
Proof.
  unfold lpt_build. destruct (sorted_lpt_data data) as [sorted|e]; [|done]. simpl.
  pose proof (lpt_loop_length (fresh_nodes n) sorted) as Hlen.
  destruct (lpt_loop (fresh_nodes n) sorted) as [[[]|e] table]; [|done].
  intros [= <-]. by rewrite <- length_fresh_nodes.
Qed.

Lemma configure_ready options self self' :
  configure h options self = (Ok (), self') →
  (_options_are_valid h (read_options options self)).1 = Ok true →
  distributed_disabled options = false →
  ∃ n i,
    node_count self' = PInt n ∧ node_id self' = PInt i ∧ 1 ≤ i ≤ n ∧
    hash_ring self' = Some (seqZ 1 n) ∧
    algorithm self' = algorithms (options_algorithm options) ∧
    hash_by_class self' = distributed_hash_by_class options ∧
    (options_algorithm options = least_processing_time_name →
       ∃ data nodes,
         lpt_data self' = Some data ∧ lpt_nodes self' = Some nodes ∧
         lpt_build n data = Ok nodes).
Proof.
  intros Hconf Hv Hdis.
  apply valid_iff in Hv as (n & i & Hn & Hi & Hr).
  rewrite (configure_valid h options self n i) in Hconf by done.
  exists n, i.
  assert (∀ s, s = validated options self n i →
            node_count s = PInt n ∧ node_id s = PInt i ∧
            algorithm s = algorithms (options_algorithm options) ∧
            hash_by_class s = distributed_hash_by_class options) as Hfields.
  { intros s ->. unfold validated. by destruct (1 <? n). }
  destruct (Hfields _ eq_refl) as (Hc & Hid & Ha & Hb).
  destruct (options_algorithm options) eqn:Halg.
  - injection Hconf as <-. simpl. by rewrite Hc, Hid, Ha, Hb.
  - destruct (load_lpt h n (validated options self n i)) as [[[]|e] s] eqn:Hl; [|done].
    apply load_lpt_Ok in Hl as (path & content & data & nodes & _ & _ & _ & _ & _ & Hbuild & ->).
    injection Hconf as <-. simpl. rewrite Hc, Hid, Ha, Hb.
    do 6 (split; [done|]). intros _. by exists data, nodes.
Qed.

(** On a plugin that [configure] made ready, every callback returns. *)
Lemma callbacks_return options self self' :
  configure h options self = (Ok (), self') →
  (_options_are_valid h (read_options options self)).1 = Ok true →
  distributed_disabled options = false →
  (∀ f, ∃ r, wantFunction h self' f = Ok r) ∧
  (∀ m, ∃ r, wantMethod h self' m = Ok r) ∧
  (∀ c, ∃ r, wantClass h self' c = Ok r).
Proof.
  intros Hconf Hv Hdis.
  destruct (configure_ready _ _ _ Hconf Hv Hdis)
    as (n & i & Hc & Hid & Hr & Hring & Ha & Hb & Hlpt).
  assert (∀ t, ∃ r, validateName h self' t = Ok r) as Hname.
  { intros t. rewrite (validateName_built h self' (seqZ 1 n)) by done. by eexists. }
  assert (options_algorithm options = least_processing_time_name →
          ∀ key, ∃ b, in_own_objects self' key = Ok b) as Hown.
  { intros Halg key. destruct (Hlpt Halg) as (data & nodes & _ & Hnodes & Hbuild).
    apply lpt_build_length in Hbuild.
    destruct (lookup_lt_is_Some_2 nodes (Z.to_nat i)) as [b Hlook]; [lia|].
    exists (bool_decide (key ∈ objects b)).
    apply (in_own_objects_loaded self' nodes i b); [done..|lia|done]. }
  split; [intros f; apply Hname|]. split.
  - intros m. unfold wantMethod. rewrite Ha, Hb.
    destruct (distributed_hash_by_class options); [by eexists|].
    destruct (options_algorithm options) eqn:Halg; simpl; [apply Hname|].
    destruct (Hlpt eq_refl) as (data & nodes & Hdata & _ & _).
    rewrite (lpt_data_has_loaded self' data) by done. simpl.
    case_bool_decide.
    + destruct (Hown eq_refl (full_name m)) as [b ->]. by eexists.
    + rewrite (ring_get_node_built h self' (seqZ 1 n)) by done. simpl.
      destruct (differs _ _); [by eexists | apply Hname].
  - intros c. unfold wantClass. rewrite Ha, Hb.
    destruct (distributed_hash_by_class options); [|by eexists].
    destruct (options_algorithm options) eqn:Halg; simpl.
    + rewrite (ring_get_node_built h self' (seqZ 1 n)) by done. simpl.
      destruct (differs _ _); by eexists.
    + destruct (Hlpt eq_refl) as (data & nodes & Hdata & _ & _).
      rewrite (lpt_data_has_loaded self' data) by done. simpl.
      case_bool_decide.
      * destruct (Hown eq_refl (namespaced_class c)) as [b ->]. by eexists.
      * rewrite (ring_get_node_built h self' (seqZ 1 n)) by done. simpl.
        destruct (differs _ _); by eexists.
Qed.
End Ready.

(** ** Sums kept by the build *)

Section Sums.
Implicit Types (nodes : list lpt_node) (pairs : list (string * Z)) (data : dict).

Lemma total_duration_perm pairs1 pairs2 :
  pairs1 ≡ₚ pairs2 → total_duration pairs1 = total_duration pairs2.
Proof. induction 1; simpl in *; lia. Qed.


Lemma key_durations_perm data1 data2 :
  data1 ≡ₚ data2 → key_durations data1 ≡ₚ key_durations data2.
Proof. unfold key_durations. by intros ->. Qed.



Lemma total_time_insert nodes i b b' :
  nodes !! i = Some b →
  total_time (<[i := b']> nodes) = total_time nodes - processing_time b + processing_time b'.
Proof.
  revert i. induction nodes as [|c nodes IH]; intros [|i] Hb; simplify_eq/=; [lia|].
  rewrite (IH i) by done. lia.
Qed.

Lemma total_time_fresh n : total_time (fresh_nodes n) = 0.
Proof. unfold fresh_nodes. induction (Z.to_nat (n + 1)) as [|k IH]; simpl; lia. Qed.

(** Every step of the greedy rule adds the duration it assigns. *)
Lemma greedy_total nodes pairs nodes' :
  greedy nodes pairs nodes' →
  total_time nodes' = total_time nodes + total_duration pairs.
Proof.
  induction 1 as [nodes | nodes i b key d rest nodes' _ Hb _ IH]; simpl; [lia|].
  rewrite IH, (total_time_insert _ _ b) by done. simpl. lia.
Qed.

(** The greedy rule keeps the nodes within [D] of each other. *)
Lemma greedy_balanced D nodes pairs nodes' :
  greedy nodes pairs nodes' → 0 ≤ D →
  Forall (λ p, 0 ≤ p.2 ≤ D) pairs →
  balanced D nodes → balanced D nodes'.
Proof.
  intros Hgr HD. induction Hgr as [nodes | nodes i b key d rest nodes' Hleast Hb _ IH];
    intros Hall Hbal; [done|].
  apply Forall_cons in Hall as [Hd Hall]. simpl in Hd. apply IH; [done|].
  destruct Hleast as (b1 & Hi & Hb1 & Hmin).
  assert (b1 = b) as -> by congruence.
  intros j1 j2 c1 c2 H1 H2 Hc1 Hc2.
  apply list_lookup_insert_Some in Hc1 as [(<- & <- & _) | (Hne1 & Hc1)];
    apply list_lookup_insert_Some in Hc2 as [(<- & <- & _) | (Hne2 & Hc2)]; simpl.
  - lia.
  - destruct (Hmin _ _ H2 Hc2). lia.
  - pose proof (Hbal _ _ _ _ H1 Hi Hc1 Hb). lia.
  - by apply (Hbal j1 j2).
Qed.

Lemma balanced_fresh D n : 0 ≤ D → balanced D (fresh_nodes n).
Proof.
  intros HD i j bi bj _ _ Hi Hj.
  apply lookup_fresh_nodes in Hi as ->. apply lookup_fresh_nodes in Hj as ->. simpl. lia.
Qed.




(** The loop never touches the dummy node. *)
Lemma lpt_loop_dummy nodes (sorted : dict) :
  (lpt_loop nodes sorted).2 !! 0%nat = nodes !! 0%nat.
Proof.
  revert nodes. induction sorted as [|[obj entry] sorted IH]; intros nodes; [done|].
  simpl. destruct (py_min (drop 1 nodes)) as [j|e]; [|done].
  destruct (duration entry) as [d|e]; [|done].
  by rewrite IH, list_lookup_alter_ne.
Qed.

(** A bound on every element bounds the sum. *)
Lemma total_time_bounds nodes x D :
  Forall (λ c, x ≤ processing_time c + D ∧ processing_time c ≤ x + D) nodes →
  Z.of_nat (length nodes) * x ≤ total_time nodes + Z.of_nat (length nodes) * D ∧
  total_time nodes ≤ Z.of_nat (length nodes) * x + Z.of_nat (length nodes) * D.
Proof. induction 1 as [|c nodes [? ?] _ IH]; simpl length; simpl total_time; lia. Qed.
End Sums.





(** X3. With durations between 0 and [D], no node of the table is ahead of
    another by more than [D]. *)
Theorem lpt_build_balanced (n D : Z) (data : dict) :
  1 ≤ n → timed data → 0 ≤ D →
  Forall (λ p, 0 ≤ p.2 ≤ D) (key_durations data) →
  ∃ nodes, lpt_build n data = Ok nodes ∧ balanced D nodes.
Proof.
  intros Hn Ht HD Hall.
  destruct (lpt_build_timed n data Hn Ht)
    as (sorted & nodes & _ & Hp & _ & _ & _ & _ & Hb & _ & Hgr).
  exists nodes. split; [done|].
  apply (greedy_balanced D _ _ _ Hgr); [done| |by apply balanced_fresh].
  by rewrite (key_durations_perm _ _ Hp).
Qed.

Lemma lpt_build_balanced_witness :
  ∃ nodes, lpt_build 2 scenario = Ok nodes ∧ balanced 10 nodes.
Proof.
  apply (lpt_build_balanced 2 10 scenario); [lia | scenario_timed | lia |].
  vm_compute key_durations. repeat constructor; simpl; lia.
Defined.

(** X4. Whatever the record, the table that the build returns has one
    element for each of the nodes 0 to [n], and the dummy node 0 is as it
    was created: no time and no object. *)
Theorem lpt_build_dummy (n : Z) (data : dict) (nodes : list lpt_node) :
  0 ≤ n → lpt_build n data = Ok nodes →
  length nodes = Z.to_nat (n + 1) ∧ nodes !! 0%nat = Some fresh_node.
Proof.
  intros Hn Hb. split; [by eapply lpt_build_length|].
  unfold lpt_build in Hb. destruct (sorted_lpt_data data) as [sorted|e]; [|done].
  simpl in Hb. pose proof (lpt_loop_dummy (fresh_nodes n) sorted) as Hd.
  destruct (lpt_loop (fresh_nodes n) sorted) as [[[]|e] table]; [|done].
  injection Hb as <-. simpl in Hd. rewrite Hd. unfold fresh_nodes.
  apply lookup_replicate. split; [done|lia].
Qed.

Lemma lpt_build_dummy_witness :
  length scenario_table = Z.to_nat (2 + 1) ∧ scenario_table !! 0%nat = Some fresh_node.
Proof. apply (lpt_build_dummy 2 scenario); [lia | vm_compute; reflexivity]. Defined.

(** X5. With durations between 0 and [D], the load of every node of 1 to
    [n] is within [D] of the average: [n] times its processing time and
    the sum of all durations differ by [n * D] at most. *)
Theorem lpt_build_load (n D : Z) (data : dict) :
  1 ≤ n → timed data → 0 ≤ D →
  Forall (λ p, 0 ≤ p.2 ≤ D) (key_durations data) →
  ∃ nodes, lpt_build n data = Ok nodes ∧
    ∀ i b, (1 ≤ i)%nat → nodes !! i = Some b →
      n * processing_time b ≤ total_duration (key_durations data) + n * D ∧
      total_duration (key_durations data) ≤ n * processing_time b + n * D.
Proof.
  intros Hn Ht HD Hall.
  destruct (lpt_build_timed n data Hn Ht)
    as (sorted & nodes & _ & Hp & _ & _ & _ & Hloop & Hb & Hlen & Hgr).
  exists nodes. split; [done|]. intros i b Hi Hlook.
  assert (balanced D nodes) as Hbal.
  { apply (greedy_balanced D _ _ _ Hgr); [done| |by apply balanced_fresh].
    by rewrite (key_durations_perm _ _ Hp). }
  assert (total_time nodes = total_duration (key_durations data)) as Htot.
  { rewrite (greedy_total _ _ _ Hgr), total_time_fresh.
    rewrite (total_duration_perm _ _ (key_durations_perm _ _ Hp)). lia. }
  pose proof (lpt_loop_dummy (fresh_nodes n) sorted) as Hd.
  rewrite Hloop in Hd. simpl in Hd.
  destruct nodes as [|b0 rest]; [done|]. simpl in Hd, Hlen, Htot.
  assert (b0 = fresh_node) as ->.
  { unfold fresh_nodes in Hd. symmetry in Hd.
    by apply lookup_replicate in Hd as [Hd _]. }
  simpl in Htot.
  destruct (total_time_bounds rest (processing_time b) D) as [Hup Hlow].
  { apply Forall_lookup. intros j c Hc. split.
    - apply (Hbal i (S j)); [done|lia|done|done].
    - apply (Hbal (S j) i); [lia|done|done|done]. }
  replace (Z.of_nat (length rest)) with n in * by lia. lia.
Qed.

Lemma lpt_build_load_witness :
  ∃ nodes, lpt_build 2 scenario = Ok nodes ∧
    ∀ i b, (1 ≤ i)%nat → nodes !! i = Some b →
      2 * processing_time b ≤ total_duration (key_durations scenario) + 2 * 10 ∧
      total_duration (key_durations scenario) ≤ 2 * processing_time b + 2 * 10.
Proof.
  apply (lpt_build_load 2 10 scenario); [lia | scenario_timed | lia |].
  vm_compute key_durations. repeat constructor; simpl; lia.
Defined.

(** ** One node *)

Section Partitions.
Implicit Types (nodes : list lpt_node) (data : dict).

(** The table of a record of distinct keys partitions the keys. *)
Lemma lpt_build_partitions n data :
  1 ≤ n → NoDup data.*1 → timed data →
  ∃ sorted nodes,
    sorted ≡ₚ data ∧
    lpt_loop (fresh_nodes n) sorted = (Ok (), nodes) ∧
    sorted_lpt_data data = Ok sorted ∧
    lpt_build n data = Ok nodes ∧
    length nodes = Z.to_nat (n + 1) ∧
    greedy (fresh_nodes n) (key_durations sorted) nodes ∧
    partitions nodes (list_to_set data.*1).
Proof.
  intros Hn Hnd Ht.
  destruct (lpt_build_timed n data Hn Ht)
    as (sorted & nodes & Hs & Hp & Hts & _ & _ & Hloop & Hb & Hlen & Hgr).
  exists sorted, nodes. do 6 (split; [done|]).
  assert (sorted.*1 ≡ₚ data.*1) as Hkeys by (by rewrite Hp).
  assert (list_to_set data.*1 = list_to_set (key_durations sorted).*1 ∪ (∅ : gset string))
    as ->.
  { rewrite key_durations_keys by done. apply set_eq. intros k.
    rewrite elem_of_union, !elem_of_list_to_set, Hkeys. set_solver. }
  apply (greedy_partitions _ _ _ ∅ Hgr).
  - by apply partitions_fresh.
  - by rewrite key_durations_keys, Hkeys.
  - set_solver.
Qed.
End Partitions.



(** ** The nodes of one run *)

Section Run.
Context (h : Host).
Implicit Types (options : Options) (self : Plugin) (data : dict).

Lemma validated_fields options self n i :
  let s := validated options self n i in
  node_count s = PInt n ∧ node_id s = PInt i ∧
  hash_by_class s = distributed_hash_by_class options ∧
  algorithm s = algorithms (options_algorithm options) ∧
  lpt_data_filepath s = options_lpt_data_filepath options ∧
  enabled s = (if 1 <? n then true else enabled self) ∧
  hash_ring s = hash_ring self ∧ lpt_data s = lpt_data self ∧
  lpt_nodes s = lpt_nodes self.
Proof. unfold validated. by destruct (1 <? n). Qed.

(** Loading assigns [lpt_data] and [lpt_nodes] only. *)
Lemma load_lpt_keeps n self :
  let s := (load_lpt h n self).2 in
  node_count s = node_count self ∧ node_id s = node_id self ∧
  hash_by_class s = hash_by_class self ∧ algorithm s = algorithm self ∧
  enabled s = enabled self ∧ hash_ring s = hash_ring self.
Proof.
  unfold load_lpt. destruct (lpt_data_filepath self) as [path|]; [|done].
  case_bool_decide; [done|].
  destruct (open_read h path) as [content|]; [|done].
  destruct (json_load h content) as [data|]; [|done].
  destruct (sorted_lpt_data data) as [sorted|e]; [|done].
  by destruct (lpt_loop (fresh_nodes n) sorted).
Qed.

(** [configure] for the least-processing-time algorithm on a readable
    file whose entries all have a duration. *)
Lemma configure_lpt_loaded options self n i path content data :
  int h (to_py (distributed_nodes options)) = Ok n →
  int h (to_py (distributed_node_number options)) = Ok i →
  1 ≤ i ≤ n → distributed_disabled options = false →
  options_algorithm options = least_processing_time_name →
  options_lpt_data_filepath options = Some path → path ≠ EmptyString →
  open_read h path = Some content → json_load h content = Some data →
  timed data →
  ∃ self' table,
    configure h options self = (Ok (), self') ∧
    lpt_build n data = Ok table ∧
    node_count self' = PInt n ∧ node_id self' = PInt i ∧
    hash_by_class self' = distributed_hash_by_class options ∧
    algorithm self' = ALGORITHM_LEAST_PROCESSING_TIME ∧
    hash_ring self' = Some (seqZ 1 n) ∧
    lpt_data self' = Some data ∧ lpt_nodes self' = Some table.
Proof.
  intros Hn Hi Hr Hdis Halg Hpath Hne Ho Hj Ht.
  destruct (lpt_build_timed n data) as
    (sorted & table & Hs & _ & _ & _ & _ & Hloop & Hb & _ & _); [lia|done|].
  destruct (validated_fields options self n i) as (Hc & Hid & Hbc & Ha & Hp & _).
  rewrite (configure_valid h options self n i), Halg by done.
  unfold load_lpt. rewrite Hp, Hpath, bool_decide_eq_false_2, Ho, Hj, Hs, Hloop by done.
  eexists _, table. split; [done|]. simpl. rewrite Hc, Hid, Hbc, Ha, Halg. done.
Qed.

(** [configure] for the hash-ring algorithm. *)
Lemma configure_hash_ring options self n i :
  int h (to_py (distributed_nodes options)) = Ok n →
  int h (to_py (distributed_node_number options)) = Ok i →
  1 ≤ i ≤ n → distributed_disabled options = false →
  options_algorithm options = hash_ring_name →
  ∃ self',
    configure h options self = (Ok (), self') ∧
    node_count self' = PInt n ∧ node_id self' = PInt i ∧
    hash_by_class self' = distributed_hash_by_class options ∧
    algorithm self' = ALGORITHM_HASH_RING ∧
    hash_ring self' = Some (seqZ 1 n).
Proof.
  intros Hn Hi Hr Hdis Halg.
  destruct (validated_fields options self n i) as (Hc & Hid & Hbc & Ha & _).
  rewrite (configure_valid h options self n i), Halg by done.
  eexists. split; [done|]. simpl. rewrite Hc, Hid, Hbc, Ha, Halg. done.
Qed.

Lemma differs_node (i j : Z) : differs (Some j) (PInt i) = negb (bool_decide (i = j)).
Proof.
  simpl. case_bool_decide; [subst; by rewrite Z.eqb_refl|].
  by rewrite (proj2 (Z.eqb_neq j i)).
Qed.
End Run.

(** X7. A key of the duration data has one owner among the nodes 1 to [n]
    of a run: whichever node number a plugin is configured for, under the
    least-processing-time algorithm on the same file, its callback returns
    [True] for the key on the owner and [False] on every other node
    ([wantMethod] without hash-by-class, [wantClass] with it). *)
Theorem lpt_hit_one_owner (h : Host) (path content : string) (data : dict)
    (n : Z) (key : string) :
  path ≠ EmptyString →
  open_read h path = Some content → json_load h content = Some data →
  timed data → NoDup data.*1 → key ∈ data.*1 → 1 ≤ n →
  ∃ j, 1 ≤ j ≤ n ∧
    ∀ options self i,
      int h (to_py (distributed_nodes options)) = Ok n →
      int h (to_py (distributed_node_number options)) = Ok i →
      1 ≤ i ≤ n → distributed_disabled options = false →
      options_algorithm options = least_processing_time_name →
      options_lpt_data_filepath options = Some path →
      ∃ self', configure h options self = (Ok (), self') ∧
        (distributed_hash_by_class options = false →
           ∀ m, full_name m = key →
             wantMethod h self' m = Ok (Some (bool_decide (i = j)))) ∧
        (distributed_hash_by_class options = true →
           ∀ c, namespaced_class c = key →
             wantClass h self' c = Ok (Some (bool_decide (i = j)))).
Proof.
  intros Hne Ho Hj Ht Hnd Hkey Hn.
  destruct (lpt_build_partitions n data Hn Hnd Ht) as
    (sorted & table & _ & _ & _ & Hb & Hlen & _ & Hcover & Hdisj & b0 & Hb0 & Hempty).
  destruct (proj1 (Hcover key)) as (jn & bj & Hbj & Hin); [set_solver|].
  pose proof (lookup_lt_Some _ _ _ Hbj) as Hlt.
  assert (jn ≠ 0%nat) as Hj0 by (intros ->; simplify_eq; set_solver).
  exists (Z.of_nat jn). split; [lia|].
  intros options self i Hnodes Hnumber Hr Hdis Halg Hpath.
  destruct (configure_lpt_loaded h options self n i path content data)
    as (self' & table' & Hconf & Hb' & Hc & Hid & Hbc & Ha & Hring & Hdata & Htable);
    [done..|].
  assert (table' = table) as -> by congruence.
  exists self'. split; [done|].
  destruct (lookup_lt_is_Some_2 table (Z.to_nat i)) as [bi Hbi]; [lia|].
  assert (in_own_objects self' key = Ok (bool_decide (i = Z.of_nat jn))) as Hown.
  { rewrite (in_own_objects_loaded self' table i bi) by (done || lia).
    f_equal. apply bool_decide_ext. split.
    - intros Hk. destruct (decide (Z.to_nat i = jn)) as [<-|Hdiff]; [lia|].
      specialize (Hdisj _ _ _ _ Hdiff Hbi Hbj). set_solver.
    - intros ->. rewrite Nat2Z.id in Hbi. by simplify_eq. }
  split.
  - intros Hclass m <-. unfold wantMethod. rewrite Hbc, Hclass, Ha. simpl.
    rewrite (lpt_data_has_loaded self' data) by done. simpl.
    rewrite bool_decide_eq_true_2 by done. by rewrite Hown.
  - intros Hclass c <-. unfold wantClass. rewrite Hbc, Hclass, Ha. simpl.
    rewrite (lpt_data_has_loaded self' data) by done. simpl.
    rewrite bool_decide_eq_true_2 by done. by rewrite Hown.
Qed.

Lemma lpt_hit_one_owner_witness :
  ∃ j, 1 ≤ j ≤ 2 ∧
    ∀ options self i,
      int example_host (to_py (distributed_nodes options)) = Ok 2 →
      int example_host (to_py (distributed_node_number options)) = Ok i →
      1 ≤ i ≤ 2 → distributed_disabled options = false →
      options_algorithm options = least_processing_time_name →
      options_lpt_data_filepath options = Some "lpt.json"%string →
      ∃ self', configure example_host options self = (Ok (), self') ∧
        (distributed_hash_by_class options = false →
           ∀ m, full_name m = "a"%string →
             wantMethod example_host self' m = Ok (Some (bool_decide (i = j)))) ∧
        (distributed_hash_by_class options = true →
           ∀ c, namespaced_class c = "a"%string →
             wantClass example_host self' c = Ok (Some (bool_decide (i = j)))).
Proof.
  apply (lpt_hit_one_owner example_host "lpt.json" "scenario" scenario 2 "a");
    [done | reflexivity | reflexivity | scenario_timed | compute_done
    | compute_done | lia].
Defined.

(** X8. Under the hash-ring algorithm the node that the ring names is the
    only one that does not exclude an item: for a ring answer [j], the
    plugin configured as node [i] of [n] returns [None] when [i = j] and
    [False] otherwise, from [wantFunction], from [wantMethod] without
    hash-by-class and from [wantClass] with it; and when the ring has no
    answer, every node excludes the item. *)
Theorem ring_owner_only (h : Host) (options : Options) (self : Plugin) (n i : Z) :
  int h (to_py (distributed_nodes options)) = Ok n →
  int h (to_py (distributed_node_number options)) = Ok i →
  1 ≤ i ≤ n → distributed_disabled options = false →
  options_algorithm options = hash_ring_name →
  ∃ self', configure h options self = (Ok (), self') ∧
    ∀ key,
      let decision :=
        match get_node h (seqZ 1 n) key with
        | Some j => if bool_decide (i = j) then None else Some false
        | None => Some false
        end in
      (∀ f, address_key h (FunctionItem f) = key →
         wantFunction h self' f = Ok decision) ∧
      (distributed_hash_by_class options = false →
         ∀ m, address_key h (MethodItem m) = key → wantMethod h self' m = Ok decision) ∧
      (distributed_hash_by_class options = true →
         ∀ c, cls_str c = key → wantClass h self' c = Ok decision).
Proof.
  intros Hn Hi Hr Hdis Halg.
  destruct (configure_hash_ring h options self n i)
    as (self' & Hconf & Hc & Hid & Hbc & Ha & Hring); [done..|].
  exists self'. split; [done|]. intros key decision.
  assert (∀ t, address_key h t = key → validateName h self' t = Ok decision) as Hname.
  { intros t <-. rewrite (validateName_built h self' (seqZ 1 n)), Hid by done.
    unfold decision. destruct (get_node h (seqZ 1 n) (address_key h t)) as [j|]; [|done].
    rewrite differs_node. by case_bool_decide. }
  split; [intros f; apply Hname|]. split.
  - intros Hclass m Hkey. unfold wantMethod. rewrite Hbc, Hclass, Ha. simpl.
    by apply Hname.
  - intros Hclass c <-. unfold wantClass. rewrite Hbc, Hclass, Ha. simpl.
    rewrite (ring_get_node_built h self' (seqZ 1 n)), Hid by done. simpl.
    unfold decision. destruct (get_node h (seqZ 1 n) (cls_str c)) as [j|]; [|done].
    rewrite differs_node. by case_bool_decide.
Qed.

Lemma ring_owner_only_witness :
  ∃ self', configure example_host
             (example_options "2" "1" false false hash_ring_name None) init
           = (Ok (), self') ∧
    ∀ key,
      let decision :=
        match get_node example_host (seqZ 1 2) key with
        | Some j => if bool_decide (1 = j) then None else Some false
        | None => Some false
        end in
      (∀ f, address_key example_host (FunctionItem f) = key →
         wantFunction example_host self' f = Ok decision) ∧
      (distributed_hash_by_class (example_options "2" "1" false false hash_ring_name None)
         = false →
         ∀ m, address_key example_host (MethodItem m) = key →
           wantMethod example_host self' m = Ok decision) ∧
      (distributed_hash_by_class (example_options "2" "1" false false hash_ring_name None)
         = true →
         ∀ c, cls_str c = key → wantClass example_host self' c = Ok decision).
Proof.
  apply (ring_owner_only example_host
           (example_options "2" "1" false false hash_ring_name None) init 2 1);
    [vm_compute; reflexivity | vm_compute; reflexivity | lia
    | reflexivity | reflexivity].
Defined.

(** ** What [configure] leaves behind *)

Section Outcome.
Context (h : Host).
Implicit Types (options : Options) (self : Plugin) (data : dict).

(** Whatever its outcome, [configure] has stored the three options that
    it does not validate. *)
Lemma configure_stores options self :
  let s := (configure h options self).2 in
  hash_by_class s = distributed_hash_by_class options ∧
  algorithm s = algorithms (options_algorithm options) ∧
  lpt_data_filepath s = options_lpt_data_filepath options.
Proof.
  unfold configure.
  pose proof (options_are_valid_cases h options self) as Hc. simpl in Hc.
  destruct (int h (to_py (distributed_nodes options))) as [n|e];
    [destruct (int h (to_py (distributed_node_number options))) as [i|e']|];
    rewrite Hc; [|done..].
  case_bool_decide; [|done]. destruct (distributed_disabled options); [done|].
  cbn [node_count set_node_id set_node_count]. fold (validated options self n i).
  destruct (validated_fields options self n i) as (_ & _ & Hbc & Ha & Hp & _).
  rewrite Ha. destruct (options_algorithm options); simpl; [done|].
  destruct (load_lpt h n (validated options self n i)) as [r s] eqn:Hl.
  assert (s = (load_lpt h n (validated options self n i)).2) as Hs by (by rewrite Hl).
  assert (lpt_data_filepath s = lpt_data_filepath (validated options self n i)) as Hpath.
  { subst s. unfold load_lpt. repeat case_match; done. }
  destruct (load_lpt_keeps h n (validated options self n i)) as (_ & _ & Hbc' & Ha' & _).
  rewrite <- Hs in Hbc', Ha'. destruct r as [[]|e]; simpl; by rewrite ?Hbc', ?Ha', ?Hpath.
Qed.

(** Past validation and the disable flag: [enabled] is set for more than
    one node only, and the two numbers are integers, whatever follows. *)
Lemma configure_valid_fields options self n i r self' :
  int h (to_py (distributed_nodes options)) = Ok n →
  int h (to_py (distributed_node_number options)) = Ok i →
  1 ≤ i ≤ n → distributed_disabled options = false →
  configure h options self = (r, self') →
  enabled self' = (if 1 <? n then true else enabled self) ∧
  node_count self' = PInt n ∧ node_id self' = PInt i.
Proof.
  intros Hn Hi Hr Hdis Hconf.
  rewrite (configure_valid h options self n i) in Hconf by done.
  destruct (validated_fields options self n i) as (Hc & Hid & _ & _ & _ & He & _).
  destruct (options_algorithm options).
  - injection Hconf as <- <-. simpl. by rewrite Hc, Hid, He.
  - destruct (load_lpt_keeps h n (validated options self n i))
      as (Hc' & Hid' & _ & _ & He' & _).
    destruct (load_lpt h n (validated options self n i)) as [[[]|e] s];
      injection Hconf as <- <-; simpl in *; by rewrite ?Hc', ?Hid', ?He'.
Qed.
End Outcome.

(** X9. Past validation and the disable flag, [configure] sets [enabled]
    to [True] when the node count is above 1 and otherwise leaves it as it
    was; it has made node count and node number integers; and it builds
    the ring when it returns, and leaves it as it was when it raises on the
    duration data, with [enabled] already set. *)
Theorem enabled_after_validation (h : Host) (options : Options) (self : Plugin)
    (n i : Z) (r : result unit) (self' : Plugin) :
  int h (to_py (distributed_nodes options)) = Ok n →
  int h (to_py (distributed_node_number options)) = Ok i →
  1 ≤ i ≤ n → distributed_disabled options = false →
  configure h options self = (r, self') →
  enabled self' = (if 1 <? n then true else enabled self) ∧
  node_count self' = PInt n ∧ node_id self' = PInt i ∧
  hash_ring self' =
    match r with Ok _ => Some (seqZ 1 n) | Raise _ => hash_ring self end.
Proof.
  intros Hn Hi Hr Hdis Hconf.
  rewrite (configure_valid h options self n i) in Hconf by done.
  destruct (validated_fields options self n i) as (Hc & Hid & _ & _ & _ & He & Hring & _).
  destruct (options_algorithm options).
  - injection Hconf as <- <-. simpl. by rewrite Hc, Hid, He.
  - destruct (load_lpt_keeps h n (validated options self n i))
      as (Hc' & Hid' & _ & _ & He' & Hring').
    destruct (load_lpt h n (validated options self n i)) as [[[]|e] s];
      injection Hconf as <- <-; simpl in *; by rewrite ?Hc', ?Hid', ?He', ?Hring'.
Qed.

Lemma enabled_after_validation_witness :
  enabled (configure example_host
             (example_options "2" "1" false false least_processing_time_name
                (Some "missing.json"%string)) init).2
    = (if 1 <? 2 then true else enabled init) ∧
  node_count (configure example_host
                (example_options "2" "1" false false least_processing_time_name
                   (Some "missing.json"%string)) init).2 = PInt 2 ∧
  node_id (configure example_host
             (example_options "2" "1" false false least_processing_time_name
                (Some "missing.json"%string)) init).2 = PInt 1 ∧
  hash_ring (configure example_host
               (example_options "2" "1" false false least_processing_time_name
                  (Some "missing.json"%string)) init).2
    = match (Raise IOError : result unit) with
      | Ok _ => Some (seqZ 1 2)
      | Raise _ => hash_ring init
      end.
Proof.
  apply (enabled_after_validation example_host
           (example_options "2" "1" false false least_processing_time_name
              (Some "missing.json"%string)) init 2 1 (Raise IOError));
    [vm_compute; reflexivity | vm_compute; reflexivity | lia
    | reflexivity | vm_compute; reflexivity].
Defined.

(** X10. What a failure of the duration data leaves in the plugin.  When
    there is no data source, the file is unreadable or its content does not
    parse, [lpt_data] and [lpt_nodes] are as they were.  When an entry
    lacks its duration, the record is already stored and [lpt_nodes] holds
    the nodes as created, none with any object: the sort computes every
    key before the loop assigns anything. *)
Theorem failed_load_state (h : Host) (options : Options) (self : Plugin)
    (n i : Z) (e : exn) :
  int h (to_py (distributed_nodes options)) = Ok n →
  int h (to_py (distributed_node_number options)) = Ok i →
  1 ≤ i ≤ n → distributed_disabled options = false →
  options_algorithm options = least_processing_time_name →
  data_failure h options e →
  ∃ self', configure h options self = (Raise e, self') ∧
    match e with
    | KeyError =>
      ∃ path content data,
        options_lpt_data_filepath options = Some path ∧
        open_read h path = Some content ∧ json_load h content = Some data ∧
        lpt_data self' = Some data ∧ lpt_nodes self' = Some (fresh_nodes n)
    | _ => lpt_data self' = lpt_data self ∧ lpt_nodes self' = lpt_nodes self
    end.
Proof.
  intros Hn Hi Hr Hdis Halg Hfail.
  rewrite (configure_valid h options self n i), Halg by done.
  destruct (validated_fields options self n i)
    as (_ & _ & _ & _ & Hp & _ & _ & Hdata & Hnodes).
  unfold load_lpt. rewrite Hp.
  destruct Hfail as [[-> | ->] | path Hpath Hne Ho | path content Hpath Hne Ho Hj
                     | path content data t Hpath Hne Ho Hj Ht Hd].
  - by eexists.
  - by eexists.
  - rewrite Hpath, bool_decide_eq_false_2, Ho by done. by eexists.
  - rewrite Hpath, bool_decide_eq_false_2, Ho, Hj by done. by eexists.
  - rewrite Hpath, bool_decide_eq_false_2, Ho, Hj by done.
    rewrite (sorted_lpt_data_untimed data t) by done.
    eexists. split; [done|]. by exists path, content, data.
Qed.

Lemma failed_load_state_witness :
  ∃ self', configure example_host
             (example_options "2" "1" false false least_processing_time_name
                (Some "missing.json"%string)) init = (Raise IOError, self') ∧
    lpt_data self' = lpt_data init ∧ lpt_nodes self' = lpt_nodes init.
Proof.
  apply (failed_load_state example_host
           (example_options "2" "1" false false least_processing_time_name
              (Some "missing.json"%string)) init 2 1 IOError);
    [vm_compute; reflexivity | vm_compute; reflexivity | lia
    | reflexivity | reflexivity |].
  by apply (unreadable _ _ "missing.json"%string).
Defined.

(** X11. A plugin that [configure] left disabled, because the options did
    not validate or the disable flag was set, has no ring if it had none:
    [wantFunction] raises [AttributeError] on it, and so does a callback
    that would ask the ring under the hash-ring algorithm, while under the
    least-processing-time algorithm that callback raises [TypeError] on
    the missing duration data.  The callback of the other granularity
    still defers. *)
Theorem callbacks_without_ring (h : Host) (options : Options) (self : Plugin) :
  hash_ring self = None → lpt_data self = None →
  invalid h options ∨ distributed_disabled options = true →
  ∃ self', configure h options self = (Ok (), self') ∧
    enabled self' = false ∧
    (∀ f, wantFunction h self' f = Raise AttributeError) ∧
    (∀ m, wantMethod h self' m =
       if distributed_hash_by_class options then Ok None
       else match options_algorithm options with
            | hash_ring_name => Raise AttributeError
            | least_processing_time_name => Raise TypeError
            end) ∧
    (∀ c, wantClass h self' c =
       if distributed_hash_by_class options
       then match options_algorithm options with
            | hash_ring_name => Raise AttributeError
            | least_processing_time_name => Raise TypeError
            end
       else Ok None).
Proof.
  intros Hring Hdata Hoff.
  assert (∃ self', configure h options self = (Ok (), self') ∧ enabled self' = false ∧
            hash_ring self' = None ∧ lpt_data self' = None)
    as (self' & Hconf & He & Hring' & Hdata').
  { unfold configure.
    pose proof (options_are_valid_cases h options self) as Hc. simpl in Hc.
    destruct Hoff as [Hinv|Hdis].
    - apply (invalid_iff h options self) in Hinv.
      destruct (_options_are_valid h (read_options options self)) as [r s] eqn:Hv.
      simpl in Hinv. subst r.
      assert (hash_ring s = None ∧ lpt_data s = None) as [? ?].
      { repeat case_match; simplify_eq; done. }
      by eexists.
    - destruct (int h (to_py (distributed_nodes options))) as [n|e];
        [destruct (int h (to_py (distributed_node_number options))) as [i|e']|];
        rewrite Hc; try by eexists.
      case_bool_decide; [|by eexists]. rewrite Hdis. by eexists. }
  exists self'. split; [done|]. split; [done|].
  destruct (configure_stores h options self) as (Hbc & Ha & _).
  rewrite Hconf in Hbc, Ha. simpl in Hbc, Ha.
  assert (∀ t, validateName h self' t = Raise AttributeError) as Hname.
  { intros t. unfold validateName, ring_get_node. by rewrite Hring'. }
  split; [intros f; apply Hname|]. split.
  - intros m. unfold wantMethod, lpt_data_has. rewrite Hbc, Ha, Hdata'.
    destruct (distributed_hash_by_class options); [done|].
    destruct (options_algorithm options); simpl; [apply Hname|done].
  - intros c. unfold wantClass, lpt_data_has, ring_get_node. rewrite Hbc, Ha, Hdata', Hring'.
    destruct (distributed_hash_by_class options); [|done].
    by destruct (options_algorithm options).
Qed.

Lemma callbacks_without_ring_witness :
  ∃ self', configure example_host
             (example_options "2" "3" false false hash_ring_name None) init
           = (Ok (), self') ∧
    enabled self' = false ∧
    (∀ f, wantFunction example_host self' f = Raise AttributeError) ∧
    (∀ m, wantMethod example_host self' m =
       if distributed_hash_by_class (example_options "2" "3" false false hash_ring_name None)
       then Ok None
       else match options_algorithm
                    (example_options "2" "3" false false hash_ring_name None) with
            | hash_ring_name => Raise AttributeError
            | least_processing_time_name => Raise TypeError
            end) ∧
    (∀ c, wantClass example_host self' c =
       if distributed_hash_by_class (example_options "2" "3" false false hash_ring_name None)
       then match options_algorithm
                    (example_options "2" "3" false false hash_ring_name None) with
            | hash_ring_name => Raise AttributeError
            | least_processing_time_name => Raise TypeError
            end
       else Ok None).
Proof.
  apply (callbacks_without_ring example_host
           (example_options "2" "3" false false hash_ring_name None) init);
    [done | done |].
  left. right. right. exists 2, 3.
  split; [vm_compute; reflexivity|]. split; [vm_compute; reflexivity|]. lia.
Defined.

(** X12. Bare functions are distributed by the ring under the
    least-processing-time algorithm as well: [wantFunction] returns [None]
    on the node that the ring names and [False] on the others, whether or
    not the duration data holds the function's key. *)
Theorem lpt_functions_by_ring (h : Host) (options : Options) (self : Plugin)
    (n i : Z) (path content : string) (data : dict) :
  int h (to_py (distributed_nodes options)) = Ok n →
  int h (to_py (distributed_node_number options)) = Ok i →
  1 ≤ i ≤ n → distributed_disabled options = false →
  options_algorithm options = least_processing_time_name →
  options_lpt_data_filepath options = Some path → path ≠ EmptyString →
  open_read h path = Some content → json_load h content = Some data →
  timed data →
  ∃ self', configure h options self = (Ok (), self') ∧
    ∀ f, wantFunction h self' f =
      Ok match get_node h (seqZ 1 n) (address_key h (FunctionItem f)) with
         | Some j => if bool_decide (i = j) then None else Some false
         | None => Some false
         end.
Proof.
  intros Hn Hi Hr Hdis Halg Hpath Hne Ho Hj Ht.
  destruct (configure_lpt_loaded h options self n i path content data)
    as (self' & table & Hconf & _ & _ & Hid & _ & _ & Hring & _); [done..|].
  exists self'. split; [done|]. intros f. unfold wantFunction.
  rewrite (validateName_built h self' (seqZ 1 n)), Hid by done.
  destruct (get_node h (seqZ 1 n) (address_key h (FunctionItem f))) as [j|]; [|done].
  rewrite differs_node. by case_bool_decide.
Qed.

Lemma lpt_functions_by_ring_witness :
  ∃ self', configure example_host
             (example_options "2" "1" false false least_processing_time_name
                (Some "lpt.json"%string)) init = (Ok (), self') ∧
    ∀ f, wantFunction example_host self' f =
      Ok match get_node example_host (seqZ 1 2)
                 (address_key example_host (FunctionItem f)) with
         | Some j => if bool_decide (1 = j) then None else Some false
         | None => Some false
         end.
Proof.
  apply (lpt_functions_by_ring example_host
           (example_options "2" "1" false false least_processing_time_name
              (Some "lpt.json"%string)) init 2 1 "lpt.json" "scenario" scenario);
    [vm_compute; reflexivity | vm_compute; reflexivity | lia
    | reflexivity | reflexivity | reflexivity | done
    | reflexivity | reflexivity | scenario_timed].
Defined.

(** X13. Sorting what the sort returned changes nothing, and a record that
    is presented already sorted is built into the same table. *)
Theorem sorted_lpt_data_idempotent (data sorted : dict) :
  sorted_lpt_data data = Ok sorted →
  sorted_lpt_data sorted = Ok sorted ∧
  ∀ n, lpt_build n sorted = lpt_build n data.
Proof.
  intros Hs. pose proof (sorted_lpt_data_Ok_timed _ _ Hs) as Ht.
  destruct (sorted_lpt_data_timed data Ht) as (sorted' & Hs' & _ & Hts & _ & Hties).
  assert (sorted' = sorted) as -> by congruence.
  assert (sorted_lpt_data sorted = sorted_lpt_data data) as Heq
    by (by apply sorted_lpt_data_ties).
  split; [by rewrite Heq|]. intros n. by apply lpt_build_sorted.
Qed.

Lemma sorted_lpt_data_idempotent_witness :
  sorted_lpt_data scenario = Ok scenario ∧
  ∀ n, lpt_build n scenario = lpt_build n (rotated scenario).
Proof.
  apply (sorted_lpt_data_idempotent (rotated scenario) scenario).
  vm_compute; reflexivity.
Defined.

(** X14. A run without flags is configured by the environment.
    Hash-by-class is on exactly when [NOSE_HASH_BY_CLASS] is set to a
    string that is not empty, whatever the string says; the disable flag
    is off; and with neither [NOSE_NODES] nor [NOSE_NODE_NUMBER] set the
    plugin is node 1 of 1 and [configure] leaves [enabled] as it was. *)
Theorem environment_configures (env : gmap string string) (h : Host)
    (o : Options) (self : Plugin) (r : result unit) (self' : Plugin) :
  without_flags (options env) = Some o →
  configure h o self = (r, self') →
  (hash_by_class self' = true ↔
     ∃ s, env !! "NOSE_HASH_BY_CLASS"%string = Some s ∧ s ≠ EmptyString) ∧
  distributed_disabled o = false ∧
  (env !! "NOSE_NODES"%string = None → env !! "NOSE_NODE_NUMBER"%string = None →
     enabled self' = enabled self ∧
     node_count self' = PInt 1 ∧ node_id self' = PInt 1).
Proof.
  intros Ho Hconf.
  assert (distributed_hash_by_class o = env_flag env "NOSE_HASH_BY_CLASS" ∧
          distributed_disabled o = false ∧
          distributed_nodes o = env_get_or_1 env "NOSE_NODES" ∧
          distributed_node_number o = env_get_or_1 env "NOSE_NODE_NUMBER")
    as (Hflag & Hdis & Hnodes & Hnumber).
  { unfold without_flags in Ho.
    destruct (algorithm_choice (default_algorithm (options env))); [|done].
    by injection Ho as <-. }
  split; [|split; [done|]].
  - destruct (configure_stores h o self) as (Hbc & _).
    rewrite Hconf in Hbc. simpl in Hbc. rewrite Hbc, Hflag. unfold env_flag.
    destruct (env !! "NOSE_HASH_BY_CLASS"%string) as [s|].
    + rewrite negb_true_iff, bool_decide_eq_false. naive_solver.
    + naive_solver.
  - intros Hn Hi.
    destruct (configure_valid_fields h o self 1 1 r self') as (He & Hc & Hid);
      [rewrite Hnodes; unfold env_get_or_1; by rewrite Hn
      |rewrite Hnumber; unfold env_get_or_1; by rewrite Hi
      |lia|done|done|].
    done.
Qed.

Lemma environment_configures_witness :
  let o := {| distributed_nodes := OptInt 1; distributed_node_number := OptInt 1;
              distributed_disabled := false; distributed_hash_by_class := true;
              options_algorithm := hash_ring_name;
              options_lpt_data_filepath := None |} in
  (hash_by_class (configure example_host o init).2 = true ↔
     ∃ s, example_env !! "NOSE_HASH_BY_CLASS"%string = Some s ∧ s ≠ EmptyString) ∧
  distributed_disabled o = false ∧
  (example_env !! "NOSE_NODES"%string = None →
   example_env !! "NOSE_NODE_NUMBER"%string = None →
     enabled (configure example_host o init).2 = enabled init ∧
     node_count (configure example_host o init).2 = PInt 1 ∧
     node_id (configure example_host o init).2 = PInt 1).
Proof.
  apply (environment_configures example_env example_host _ init (Ok ()));
    vm_compute; reflexivity.
Defined.

(** ** The loads and the order of the record *)

Section Loads.
Implicit Types (nodes : list lpt_node) (pairs : list (string * Z)) (data : dict).

(** The least loaded node is determined by the processing times. *)
Lemma least_loaded_times nodes1 nodes2 i1 i2 :
  processing_time <$> nodes1 = processing_time <$> nodes2 →
  least_loaded nodes1 i1 → least_loaded nodes2 i2 → i1 = i2.
Proof.
  intros Heq (b1 & H1 & Hb1 & Hmin1) (b2 & H2 & Hb2 & Hmin2).
  assert (∃ c1, nodes1 !! i2 = Some c1 ∧ processing_time c1 = processing_time b2)
    as (c1 & Hc1 & Hpt1).
  { apply (f_equal (.!! i2)) in Heq. rewrite !list_lookup_fmap, Hb2 in Heq.
    destruct (nodes1 !! i2) as [c1|]; [|done]. exists c1. split; [done|].
    by injection Heq. }
  assert (∃ c2, nodes2 !! i1 = Some c2 ∧ processing_time c2 = processing_time b1)
    as (c2 & Hc2 & Hpt2).
  { apply (f_equal (.!! i1)) in Heq. rewrite !list_lookup_fmap, Hb1 in Heq.
    destruct (nodes2 !! i1) as [c2|]; [|done]. exists c2. split; [done|].
    by injection Heq. }
  destruct (Hmin1 _ _ H2 Hc1) as [Hle1 Htie1].
  destruct (Hmin2 _ _ H1 Hc2) as [Hle2 Htie2].
  assert (processing_time b1 = processing_time b2) as Hsame by lia.
  assert (i1 ≤ i2)%nat by (apply Htie1; lia).
  assert (i2 ≤ i1)%nat by (apply Htie2; lia).
  lia.
Qed.

(** The processing times that the greedy rule ends with depend on the
    durations only, not on the keys. *)
Lemma greedy_times nodes1 pairs1 nodes1' :
  greedy nodes1 pairs1 nodes1' →
  ∀ nodes2 pairs2 nodes2',
    greedy nodes2 pairs2 nodes2' →
    pairs1.*2 = pairs2.*2 →
    processing_time <$> nodes1 = processing_time <$> nodes2 →
    processing_time <$> nodes1' = processing_time <$> nodes2'.
Proof.
  induction 1 as [nodes1 | nodes1 i1 b1 key1 d1 rest1 nodes1' Hleast1 Hb1 _ IH];
    intros nodes2 pairs2 nodes2' Hgr2 Hd Hpt.
  - destruct pairs2; [|done]. inversion Hgr2; by subst.
  - destruct pairs2 as [|[key2 d2] rest2]; [done|].
    injection Hd as -> Hd.
    inversion Hgr2 as [|? i2 b2 ? ? ? ? Hleast2 Hb2 Hgr2']; subst.
    assert (i1 = i2) as -> by (by eapply least_loaded_times).
    apply (IH _ _ _ Hgr2' Hd).
    rewrite !list_fmap_insert. simpl. rewrite Hpt. do 2 f_equal.
    apply (f_equal (.!! i2)) in Hpt. rewrite !list_lookup_fmap, Hb1, Hb2 in Hpt.
    by injection Hpt.
Qed.

(** Two descending lists of the same durations are the same list. *)
Lemma descending_durations pairs1 pairs2 :
  descending pairs1 → descending pairs2 → pairs1 ≡ₚ pairs2 →
  pairs1.*2 = pairs2.*2.
Proof.
  intros H1 H2 Hp.
  assert (∀ pairs, descending pairs → StronglySorted (λ x y : Z, y ≤ x) pairs.*2) as Hd.
  { induction 1 as [|p pairs _ IH Hall]; [constructor|].
    rewrite fmap_cons. constructor; [done|]. by rewrite Forall_fmap. }
  apply (StronglySorted_unique_strong (λ x y : Z, y ≤ x)); [|by apply Hd..|by rewrite Hp].
  intros; lia.
Qed.

(** Objects are only added. *)
Lemma greedy_keeps_objects nodes pairs nodes' i b :
  greedy nodes pairs nodes' → nodes !! i = Some b →
  ∃ b', nodes' !! i = Some b' ∧ objects b ⊆ objects b'.
Proof.
  intros Hgr. revert b.
  induction Hgr as [nodes | nodes i0 b0 key d rest nodes' _ Hb0 _ IH]; intros b Hb.
  - by exists b.
  - pose proof (lookup_lt_Some _ _ _ Hb0) as Hlt.
    destruct (decide (i0 = i)) as [->|Hne].
    + simplify_eq. destruct (IH _ (list_lookup_insert_eq _ _ _ Hlt)) as (b' & Hb' & Hsub).
      exists b'. split; [done|]. simpl in Hsub. set_solver.
    + apply IH. by rewrite list_lookup_insert_ne.
Qed.

(** While a node is still empty, a pair of positive duration goes to the
    first empty node. *)
Lemma greedy_fills nodes pairs nodes' :
  greedy nodes pairs nodes' →
  ∀ k m key d,
    filled k nodes → Forall (λ p, 0 < p.2) pairs →
    (S (k + m) < length nodes)%nat → pairs !! m = Some (key, d) →
    ∃ b, nodes' !! S (k + m) = Some b ∧ key ∈ objects b.
Proof.
  induction 1 as [nodes | nodes i b key0 d0 rest nodes' Hleast Hb Hgr IH];
    intros k m key d [Hfull Hfree] Hpos Hlen Hm; [done|].
  apply Forall_cons in Hpos as [Hd0 Hpos]. simpl in Hd0.
  assert (i = S k) as ->.
  { destruct Hleast as (b1 & Hi & Hb1 & Hmin). assert (b1 = b) as -> by congruence.
    destruct (lookup_lt_is_Some_2 nodes (S k)) as [c Hc]; [lia|].
    destruct (Hmin (S k) c) as [Hle Htie]; [lia|done|].
    pose proof (Hfree (S k) c ltac:(lia) Hc) as Hzero.
    destruct (decide (i ≤ k)%nat) as [Hik|Hik].
    - pose proof (Hfull i b ltac:(lia) Hb). lia.
    - pose proof (Hfree i b ltac:(lia) Hb). assert (i ≤ S k)%nat by (apply Htie; lia). lia. }
  pose proof (lookup_lt_Some _ _ _ Hb) as Hlt.
  destruct m as [|m].
  - simpl in Hm. injection Hm as -> ->. rewrite Nat.add_0_r.
    destruct (greedy_keeps_objects _ _ _ (S k) _ Hgr (list_lookup_insert_eq _ _ _ Hlt))
      as (b' & Hb' & Hsub).
    exists b'. split; [done|]. simpl in Hsub. set_solver.
  - simpl in Hm. replace (S (k + S m)) with (S (S k + m)) by lia.
    apply (IH (S k) m key d); [|done|rewrite length_insert; lia|done].
    split.
    + intros j c Hj Hc.
      apply list_lookup_insert_Some in Hc as [(<- & <- & _) | (Hne & Hc)]; simpl.
      * pose proof (Hfree (S k) b ltac:(lia) Hb). lia.
      * apply (Hfull j c); [lia|done].
    + intros j c Hj Hc. rewrite list_lookup_insert_ne in Hc by lia.
      apply (Hfree j c); [lia|done].
Qed.

Lemma filled_fresh n : filled 0 (fresh_nodes n).
Proof.
  split; intros j b Hj Hb; [lia|]. by apply lookup_fresh_nodes in Hb as ->.
Qed.
End Loads.

(** X15. The loads do not depend on the order in which the record
    presents its entries: two presentations of a record are built into
    tables with the same processing times, node by node.  Only the place
    of keys of equal duration can differ. *)
Theorem lpt_build_times (n : Z) (data1 data2 : dict) :
  1 ≤ n → timed data1 → data1 ≡ₚ data2 →
  ∃ nodes1 nodes2,
    lpt_build n data1 = Ok nodes1 ∧ lpt_build n data2 = Ok nodes2 ∧
    processing_time <$> nodes1 = processing_time <$> nodes2.
Proof.
  intros Hn Ht1 Hp. pose proof (timed_perm _ _ Hp Ht1) as Ht2.
  destruct (lpt_build_timed n data1 Hn Ht1)
    as (sorted1 & nodes1 & _ & Hp1 & _ & Hd1 & _ & _ & Hb1 & _ & Hgr1).
  destruct (lpt_build_timed n data2 Hn Ht2)
    as (sorted2 & nodes2 & _ & Hp2 & _ & Hd2 & _ & _ & Hb2 & _ & Hgr2).
  exists nodes1, nodes2. do 2 (split; [done|]).
  apply (greedy_times _ _ _ Hgr1 _ _ _ Hgr2); [|done].
  apply descending_durations; [done..|].
  apply key_durations_perm. by rewrite Hp1, Hp, Hp2.
Qed.

Lemma lpt_build_times_witness :
  ∃ nodes1 nodes2,
    lpt_build 2 tied = Ok nodes1 ∧ lpt_build 2 (reverse tied) = Ok nodes2 ∧
    processing_time <$> nodes1 = processing_time <$> nodes2.
Proof.
  apply (lpt_build_times 2 tied (reverse tied)); [lia | scenario_timed |].
  apply Permutation_swap.
Defined.

(** X16. With positive durations, the first entries of the sorted record
    go one to each node, in the order of the nodes: entry [k] of the sorted
    sequence, counted from 0 and below the node count, is among the
    objects of node [k + 1]. *)
Theorem lpt_build_first_entries (n : Z) (data : dict) :
  1 ≤ n → timed data → Forall (λ p, 0 < p.2) (key_durations data) →
  ∃ sorted nodes,
    sorted_lpt_data data = Ok sorted ∧ lpt_build n data = Ok nodes ∧
    ∀ k t, (Z.of_nat k < n) → sorted !! k = Some t →
      ∃ b, nodes !! S k = Some b ∧ t.1 ∈ objects b.
Proof.
  intros Hn Ht Hpos.
  destruct (lpt_build_timed n data Hn Ht)
    as (sorted & nodes & Hs & Hp & Hts & _ & _ & _ & Hb & _ & Hgr).
  exists sorted, nodes. do 2 (split; [done|]). intros k t Hk Hlook.
  assert (∃ d, key_durations sorted !! k = Some (t.1, d)) as [d Hd].
  { clear -Hts Hlook. revert k Hlook.
    induction Hts as [|t0 sorted [d0 Hd0] _ IH]; intros k Hlook; [done|].
    rewrite (key_durations_cons t0 d0) by done.
    destruct k as [|k]; simpl in *; [simplify_eq; by eexists | by apply IH]. }
  apply (greedy_fills _ _ _ Hgr 0 k (t.1) d); [apply filled_fresh| |
    rewrite length_fresh_nodes; lia | done].
  by rewrite (key_durations_perm _ _ Hp).
Qed.

Lemma lpt_build_first_entries_witness :
  ∃ sorted nodes,
    sorted_lpt_data scenario = Ok sorted ∧ lpt_build 2 scenario = Ok nodes ∧
    ∀ k t, (Z.of_nat k < 2) → sorted !! k = Some t →
      ∃ b, nodes !! S k = Some b ∧ t.1 ∈ objects b.
Proof.
  apply (lpt_build_first_entries 2 scenario); [lia | scenario_timed |].
  vm_compute key_durations. repeat constructor; simpl; lia.
Defined.

(** ** The callbacks of a configured plugin *)

(** X17. After a [configure] that returned on options that validated,
    without the disable flag, no callback raises: each of [wantFunction],
    [wantMethod] and [wantClass] returns [True], [False] or [None] for
    every item, under either algorithm and either granularity. *)
Theorem configured_callbacks_return (h : Host) (options : Options)
    (self self' : Plugin) (n i : Z) :
  int h (to_py (distributed_nodes options)) = Ok n →
  int h (to_py (distributed_node_number options)) = Ok i →
  1 ≤ i ≤ n → distributed_disabled options = false →
  configure h options self = (Ok (), self') →
  (∀ f, ∃ r, wantFunction h self' f = Ok r) ∧
  (∀ m, ∃ r, wantMethod h self' m = Ok r) ∧
  (∀ c, ∃ r, wantClass h self' c = Ok r).
Proof.
  intros Hn Hi Hr Hdis Hconf.
  apply (callbacks_return h options self self'); [done| |done].
  apply valid_iff. by exists n, i.
Qed.

Lemma configured_callbacks_return_witness :
  (∀ f, ∃ r, wantFunction example_host
               (example_plugin "1" false least_processing_time_name) f = Ok r) ∧
  (∀ m, ∃ r, wantMethod example_host
               (example_plugin "1" false least_processing_time_name) m = Ok r) ∧
  (∀ c, ∃ r, wantClass example_host
               (example_plugin "1" false least_processing_time_name) c = Ok r).
Proof.
  apply (configured_callbacks_return example_host
           (example_options "2" "1" false false least_processing_time_name
              (Some "lpt.json"%string)) init _ 2 1);
    [vm_compute; reflexivity | vm_compute; reflexivity | lia
    | reflexivity | vm_compute; reflexivity].
Defined.

(** X18. Under the least-processing-time algorithm without hash-by-class,
    a method whose full name is not in the duration data is asked of the
    ring twice, by its full name and by its address key: [wantMethod]
    returns [None] when the ring gives both keys to this node and [False]
    when it gives either of them to another node. *)
Theorem lpt_method_miss (h : Host) (options : Options) (self : Plugin)
    (n i : Z) (path content : string) (data : dict) :
  int h (to_py (distributed_nodes options)) = Ok n →
  int h (to_py (distributed_node_number options)) = Ok i →
  1 ≤ i ≤ n → distributed_disabled options = false →
  options_algorithm options = least_processing_time_name →
  distributed_hash_by_class options = false →
  options_lpt_data_filepath options = Some path → path ≠ EmptyString →
  open_read h path = Some content → json_load h content = Some data →
  timed data →
  ∃ self', configure h options self = (Ok (), self') ∧
    ∀ m, full_name m ∉ data.*1 →
      let elsewhere key := differs (get_node h (seqZ 1 n) key) (PInt i) in
      wantMethod h self' m =
        Ok (if elsewhere (full_name m) || elsewhere (address_key h (MethodItem m))
            then Some false else None).
Proof.
  intros Hn Hi Hr Hdis Halg Hclass Hpath Hne Ho Hj Ht.
  destruct (configure_lpt_loaded h options self n i path content data)
    as (self' & table & Hconf & _ & _ & Hid & Hbc & Ha & Hring & Hdata & _); [done..|].
  exists self'. split; [done|]. intros m Hout elsewhere.
  unfold wantMethod. rewrite Hbc, Hclass, Ha. simpl.
  rewrite (lpt_data_has_loaded self' data) by done. simpl.
  rewrite bool_decide_eq_false_2 by done.
  rewrite (ring_get_node_built h self' (seqZ 1 n)) by done. simpl.
  rewrite (validateName_built h self' (seqZ 1 n)), Hid by done.
  fold (elsewhere (full_name m)). fold (elsewhere (address_key h (MethodItem m))).
  by destruct (elsewhere (full_name m)).
Qed.

Lemma lpt_method_miss_witness :
  ∃ self', configure example_host
             (example_options "2" "1" false false least_processing_time_name
                (Some "lpt.json"%string)) init = (Ok (), self') ∧
    ∀ m, full_name m ∉ scenario.*1 →
      let elsewhere key := differs (get_node example_host (seqZ 1 2) key) (PInt 1) in
      wantMethod example_host self' m =
        Ok (if elsewhere (full_name m)
               || elsewhere (address_key example_host (MethodItem m))
            then Some false else None).
Proof.
  apply (lpt_method_miss example_host
           (example_options "2" "1" false false least_processing_time_name
              (Some "lpt.json"%string)) init 2 1 "lpt.json" "scenario" scenario);
    [vm_compute; reflexivity | vm_compute; reflexivity | lia
    | reflexivity | reflexivity | reflexivity | reflexivity | done
    | reflexivity | reflexivity | scenario_timed].
Defined.
